(** * bpm_diagram_madeye: BPMN XML to dot diagrams

    A shallow embedding of [bpm_diagram_madeye/diagram_classes.py] and of
    [remove_error_handling] from [bpm_diagram_madeye/bpm_diagram.py].

    Conventions of the embedding.
    - A Python [str] is a [string]; [None] is the [None] of an [option].
    - A raising function returns a [result]; the exceptions are the ones the
      source can raise on the modelled paths.
    - An lxml element is a tree of [element] nodes: its tag string, its
      attribute dictionary, its text and its child elements in document order.
    - A Python [dict] whose iteration order is observed (the [__graph] of a
      [Graph]) is an association list in insertion order with unique keys.
    - [Subprocess.__subgraph_index], a class attribute bumped by every
      constructed Subprocess, is threaded through the construction as a
      counter of type [nat]. *)

From Stdlib Require Import String Ascii List Bool Arith Lia DecimalString.
From Stdlib Require DecimalNat DecimalFacts.
Import ListNotations.
Open Scope string_scope.

Set Warnings "-register-all".

(** ** Python values and exceptions *)

Inductive exn : Type :=
| UnsuitableHandlerException
| KeyError (key : string)
| IndexError
| AttributeError
| TypeError.

Inductive result (A : Type) : Type :=
| Ok (a : A)
| Raise (e : exn).
Arguments Ok {A} a.
Arguments Raise {A} e.

Definition bind {A B : Type} (m : result A) (f : A -> result B) : result B :=
  match m with
  | Ok a => f a
  | Raise e => Raise e
  end.

Declare Scope py_scope.
Delimit Scope py_scope with py.
Notation "x <- m ;; k" := (bind m (fun x => k))
  (at level 61, m at next level, right associativity) : py_scope.
Open Scope py_scope.

Definition is_ok {A : Type} (m : result A) : bool :=
  match m with Ok _ => true | Raise _ => false end.

(** Characters that cannot be written inside a Rocq string literal. *)
Definition LF : ascii := "010"%char.
Definition DQUOTE : ascii := "034"%char.

(** Truthiness of a [str] and of an optional [str]: [None] and the empty
    string are false. *)
Definition str_truthy (s : string) : bool :=
  match s with EmptyString => false | String _ _ => true end.

Definition opt_truthy (o : option string) : bool :=
  match o with Some s => str_truthy s | None => false end.

(** [dict.get] and [dict[...]] on a dictionary with string keys. *)
Fixpoint dict_get {V : Type} (d : list (string * V)) (k : string) : option V :=
  match d with
  | [] => None
  | (k', v) :: d' => if String.eqb k' k then Some v else dict_get d' k
  end.

Definition dict_item {V : Type} (d : list (string * V)) (k : string) : result V :=
  match dict_get d k with
  | Some v => Ok v
  | None => Raise (KeyError k)
  end.

(** [d[k] = v]: an existing key keeps its position and takes the new value, a
    new key goes to the end. *)
Fixpoint dict_set {V : Type} (d : list (string * V)) (k : string) (v : V)
  : list (string * V) :=
  match d with
  | [] => [(k, v)]
  | (k', v') :: d' =>
      if String.eqb k' k then (k', v) :: d' else (k', v') :: dict_set d' k v
  end.

Definition dict_keys {V : Type} (d : list (string * V)) : list string :=
  map fst d.

Definition dict_values {V : Type} (d : list (string * V)) : list V :=
  map snd d.

(** ** Strings: the [str] methods the source calls *)

Fixpoint str_contains (c : ascii) (s : string) : bool :=
  match s with
  | EmptyString => false
  | String a r => Ascii.eqb a c || str_contains c r
  end.

(** [s.startswith(p)] *)
Definition startswith (p s : string) : bool := String.prefix p s.

(** [s.endswith(p)] for a one-character [p]. *)
Fixpoint endswith_char (c : ascii) (s : string) : bool :=
  match s with
  | EmptyString => false
  | String a EmptyString => Ascii.eqb a c
  | String _ r => endswith_char c r
  end.

(** [s[:-1]] *)
Fixpoint drop_last (s : string) : string :=
  match s with
  | EmptyString => EmptyString
  | String _ EmptyString => EmptyString
  | String a r => String a (drop_last r)
  end.

(** [s[n:]] *)
Fixpoint drop (n : nat) (s : string) : string :=
  match n, s with
  | O, _ => s
  | S n', String _ r => drop n' r
  | S _, EmptyString => EmptyString
  end.

(** [s.replace(old, new)] for a non-empty [old]: the occurrences of [old] are
    found from left to right and do not overlap. [skip] counts the characters
    of a found occurrence that are still to be passed over. *)
Fixpoint replace_from (old new : string) (skip : nat) (s : string) : string :=
  match s with
  | EmptyString => EmptyString
  | String a r =>
      match skip with
      | S k => replace_from old new k r
      | O =>
          if String.prefix old s
          then new ++ replace_from old new (String.length old - 1) r
          else String a (replace_from old new 0 r)
      end
  end.

Definition replace (old new s : string) : string := replace_from old new 0 s.

(** Split at the last occurrence of [c]: [s.rsplit(c, 1)], [None] when [c]
    does not occur. *)
Fixpoint rsplit (c : ascii) (s : string) : option (string * string) :=
  match s with
  | EmptyString => None
  | String a r =>
      match rsplit c r with
      | Some (x, y) => Some (String a x, y)
      | None => if Ascii.eqb a c then Some (EmptyString, r) else None
      end
  end.

(** [s.split('.')[-1]]: what follows the last dot, the whole string when it
    has none. *)
Definition last_segment (s : string) : string :=
  match rsplit "."%char s with
  | Some (_, y) => y
  | None => s
  end.

(** ** Tag *)

Record Tag : Type := mkTag { Tag_namespace : string; Tag_tag : string }.

Definition BPMN_NAMESPACE : string := "http://www.omg.org/spec/BPMN/20100524/MODEL".
Definition ACTIVITI_NAMESPACE : string := "http://activiti.org/bpmn".

(** [Tag(tag)] with the default namespace. *)
Definition Tag_bpmn (tag : string) : Tag := mkTag BPMN_NAMESPACE tag.

(** [Tag.__repr__], which [str(tag)] calls. *)
Definition Tag_repr (t : Tag) : string :=
  "{" ++ Tag_namespace t ++ "}" ++ Tag_tag t.

(** [__TAG_REGEX.match(tag_str)], as the two groups. The pattern is: start of
    string, an opening brace, a greedy group of any characters, a closing
    brace, a second greedy group of any characters, end of string. "Any
    character" excludes the line feed, and the end-of-string anchor also
    matches before a line feed that ends the string, so one final line feed is
    set aside and no other may occur. The first group is greedy: it runs to
    the last closing brace. *)
Definition TAG_REGEX_match (tag_str : string) : option (string * string) :=
  match tag_str with
  | String "{"%char rest =>
      let body := if endswith_char LF rest then drop_last rest else rest in
      if str_contains LF body then None else rsplit "}"%char body
  | _ => None
  end.

(** [Tag.from_string]: [regex_result.group(1)] on a failed match is an
    attribute access on [None]. *)
Definition Tag_from_string (tag_str : string) : result Tag :=
  match TAG_REGEX_match tag_str with
  | Some (namespace, tagname) => Ok (mkTag namespace tagname)
  | None => Raise AttributeError
  end.

(** ** XML elements *)

(** An lxml element: [element.tag], [element.attrib], [element.text] and the
    child elements that iterating over the element yields. *)
Inductive element : Type :=
| Element (tag : string) (attrib : list (string * string))
          (text : option string) (children : list element).

Definition element_tag (e : element) : string :=
  match e with Element tag _ _ _ => tag end.

Definition element_attrib (e : element) : list (string * string) :=
  match e with Element _ attrib _ _ => attrib end.

Definition element_text (e : element) : option string :=
  match e with Element _ _ text _ => text end.

Definition element_children (e : element) : list element :=
  match e with Element _ _ _ children => children end.

(** [element.attrib.get(k)] and [element.attrib[k]] *)
Definition attrib_get (e : element) (k : string) : option string :=
  dict_get (element_attrib e) k.

Definition attrib_item (e : element) (k : string) : result string :=
  dict_item (element_attrib e) k.

(** The elements below [e] in document order, [e] itself left out: what a
    [findall] path that starts with [.//] ranges over. *)
Fixpoint descendants (e : element) : list element :=
  match e with
  | Element _ _ _ children => flat_map (fun c => c :: descendants c) children
  end.

(** [element.findall('.//' + tag)] *)
Definition findall_descendants (e : element) (tag : string) : list element :=
  filter (fun d => String.eqb (element_tag d) tag) (descendants e).

(** [Tag.from_element] *)
Definition Tag_from_element (e : element) : result Tag :=
  Tag_from_string (element_tag e).

(** [Graph.element_get_children_with_tag] and
    [Graph.element_get_first_child_with_tag] *)
Definition element_get_children_with_tag (e : element) (tag : Tag) : list element :=
  filter (fun c => String.eqb (element_tag c) (Tag_repr tag)) (element_children e).

Definition element_get_first_child_with_tag (e : element) (tag : Tag) : option element :=
  match element_get_children_with_tag e tag with
  | c :: _ => Some c
  | [] => None
  end.

(** [Graph.element_has_attribs]: [all] over the looked-up values, so an
    attribute counts when it is present and not the empty string. *)
Definition element_has_attribs (e : element) (attribs : list string) : bool :=
  forallb (fun a => opt_truthy (attrib_get e a)) attribs.

(** [Graph.element_is_subprocess] *)
Definition element_is_subprocess (e : element) : bool :=
  String.eqb (element_tag e) (Tag_repr (Tag_bpmn "subProcess")).

(** ** Graph items *)

(** [params]: [None] or the dictionary of flags that [main] builds. *)
Definition params_t : Type := option (list (string * bool)).

(** Truthiness of [params]: [None] and the empty dictionary are false. *)
Definition params_truthy (params : params_t) : bool :=
  match params with
  | Some (_ :: _) => true
  | _ => false
  end.

(** Truthiness of [params.get(k)], for a [params] that is not [None]. *)
Definition params_flag (params : params_t) (k : string) : bool :=
  match params with
  | Some d => match dict_get d k with Some b => b | None => false end
  | None => false
  end.

Record TaskListener : Type := mkTaskListener {
  listener_event : string;
  listener_class_name : option string;
  listener_expression : option string
}.

(** The class of a [Node] object with the attributes its subclass adds. *)
Inductive node_class : Type :=
| PlainNode
| BoundaryEvent (attached : string)
| Gateway
| ServiceTask
| UserTask (task_listeners : list TaskListener)
| CallActivity
| IntermediateCatchEvent.

Record Node : Type := mkNode {
  node_id : string;
  node_tag : string;
  node_name : string;
  node_show_id : bool;
  node_colour : option string;
  node_extras : option (list (string * option string));
  node_cls : node_class
}.

Record Edge : Type := mkEdge {
  edge_id : string;
  edge_name : option string;
  edge_source_node : string;
  edge_target_node : string;
  edge_condition : option string
}.

(** What a [Graph] stores. A [Subprocess] holds its children [Graph] (the
    dictionary [__graph] of it), its start and end node and its cluster
    index; it is not a subclass of [Node]. *)
Inductive item : Type :=
| ItemNode (n : Node)
| ItemEdge (e : Edge)
| ItemSubprocess (id name : string) (children : list (string * item))
                 (start_node end_node : Node) (index : nat).

Definition Graph : Type := list (string * item).

(** [item.id] *)
Definition item_id (it : item) : string :=
  match it with
  | ItemNode n => node_id n
  | ItemEdge e => edge_id e
  | ItemSubprocess id _ _ _ _ _ => id
  end.

(** [item.adjacent] of [Node], [Edge] and [Subprocess] *)
Definition item_adjacent (it : item) : list string :=
  match it with
  | ItemNode n => [node_id n]
  | ItemEdge e => [edge_source_node e; edge_target_node e]
  | ItemSubprocess id _ children _ _ _ => id :: dict_keys children
  end.

(** [start_node_id] and [end_node_id]: properties of [Node] and of
    [Subprocess]; an [Edge] has neither. *)
Definition item_start_node_id (it : item) : result string :=
  match it with
  | ItemNode n => Ok (node_id n)
  | ItemEdge _ => Raise AttributeError
  | ItemSubprocess _ _ _ start_node _ _ => Ok (node_id start_node)
  end.

Definition item_end_node_id (it : item) : result string :=
  match it with
  | ItemNode n => Ok (node_id n)
  | ItemEdge _ => Raise AttributeError
  | ItemSubprocess _ _ _ _ end_node _ => Ok (node_id end_node)
  end.

(** ** Node and its subclasses *)

Definition NO_NAME : string := "<no_name>".

(** [Node.__init__] *)
Definition Node_init (node_id tag : string) (name : option string) (show_id : bool)
    (colour : option string) (extras : option (list (string * option string)))
    (cls : node_class) : Node :=
  mkNode node_id tag
         (match name with
          | Some s => if str_truthy s then s else NO_NAME
          | None => NO_NAME
          end)
         show_id colour extras cls.

(** The setter of [Node.colour] *)
Definition Node_set_colour (n : Node) (colour : option string) : Node :=
  mkNode (node_id n) (node_tag n) (node_name n) (node_show_id n) colour
         (node_extras n) (node_cls n).

(** [Node.from_element] *)
Definition Node_from_element (e : element) : result Node :=
  id <- attrib_item e "id" ;;
  Ok (Node_init id (element_tag e) (attrib_get e "name") true None None PlainNode).

(** [BoundaryEvent.from_element] *)
Definition BoundaryEvent_from_element (e : element) : result Node :=
  id <- attrib_item e "id" ;;
  name <- attrib_item e "name" ;;
  attached <- attrib_item e "attachedToRef" ;;
  Ok (Node_init id (element_tag e) (Some name) false None None (BoundaryEvent attached)).

(** [Gateway.from_element] *)
Definition Gateway_from_element (e : element) : result Node :=
  let name := attrib_get e "name" in
  id <- attrib_item e "id" ;;
  Ok (Node_init id (element_tag e) name true None None Gateway).

(** [ServiceTask.from_element] *)
Definition ServiceTask_from_element (e : element) : result Node :=
  let java_class := attrib_get e ("{" ++ ACTIVITI_NAMESPACE ++ "}class") in
  id <- attrib_item e "id" ;;
  name <- attrib_item e "name" ;;
  Ok (Node_init id (element_tag e) (Some name) true (Some "#d1f4ff")
                (Some [("class", java_class)]) ServiceTask).

(** [TaskListener.from_element] *)
Definition TaskListener_from_element (e : element) : result TaskListener :=
  let class_name := attrib_get e "class" in
  let expression := attrib_get e "expression" in
  event <- attrib_item e "event" ;;
  Ok (mkTaskListener event class_name expression).

(** A list comprehension over a raising function: the first exception ends it. *)
Fixpoint map_result {A B : Type} (f : A -> result B) (l : list A) : result (list B) :=
  match l with
  | [] => Ok []
  | a :: l' => b <- f a ;; bs <- map_result f l' ;; Ok (b :: bs)
  end.

(** [UserTask.from_element] *)
Definition UserTask_from_element (e : element) : result Node :=
  task_listeners <-
    map_result TaskListener_from_element
      (findall_descendants e ("{" ++ ACTIVITI_NAMESPACE ++ "}taskListener")) ;;
  id <- attrib_item e "id" ;;
  name <- attrib_item e "name" ;;
  Ok (Node_init id (element_tag e) (Some name) true (Some "#e8d1ff") None
                (UserTask task_listeners)).

(** [CallActivity.from_element] *)
Definition CallActivity_from_element (e : element) : result Node :=
  id <- attrib_item e "id" ;;
  name <- attrib_item e "name" ;;
  called_element <- attrib_item e "calledElement" ;;
  Ok (Node_init id (element_tag e) (Some name) true (Some "#ffffd1")
                (Some [("calling", Some called_element)]) CallActivity).

(** [IntermediateCatchEvent.__get_extras] *)
Definition IntermediateCatchEvent_get_extras (e : element)
  : result (list (string * option string)) :=
  extras1 <-
    match findall_descendants e (Tag_repr (Tag_bpmn "messageEventDefinition")) with
    | d :: _ => ref <- attrib_item d "messageRef" ;; Ok [("messageRef", Some ref)]
    | [] => Ok []
    end ;;
  match findall_descendants e (Tag_repr (Tag_bpmn "timeDuration")) with
  | d :: _ => Ok (dict_set extras1 "duration" (element_text d))
  | [] => Ok extras1
  end.

(** [IntermediateCatchEvent.from_element] *)
Definition IntermediateCatchEvent_from_element (e : element) : result Node :=
  extras <- IntermediateCatchEvent_get_extras e ;;
  id <- attrib_item e "id" ;;
  name <- attrib_item e "name" ;;
  Ok (Node_init id (element_tag e) (Some name) true (Some "#ffd1f4") (Some extras)
                IntermediateCatchEvent).

(** ** Edge *)

Definition BACKSLASH : ascii := "092"%char.

(** The two characters that dot reads as a line break: ['\\n'] in the source. *)
Definition DOT_BREAK : string := String BACKSLASH "n".

(** [Edge.__tidy_condition] *)
Definition tidy_condition (condition_text : string) : string :=
  let line_break := ["&&"; "||"; "=="] in
  let condition_text :=
    if startswith "${" condition_text then drop 2 condition_text else condition_text in
  let condition_text :=
    if endswith_char "}"%char condition_text then drop_last condition_text
    else condition_text in
  let result :=
    replace (String DQUOTE "") (String BACKSLASH (String DQUOTE "")) condition_text in
  fold_left (fun result item => replace item (item ++ DOT_BREAK) result)
            line_break result.

(** [Edge.__get_condition]: the text of an empty [conditionExpression] is
    [None], on which [startswith] is an attribute error. *)
Definition Edge_get_condition (e : element) : result (option string) :=
  match element_get_first_child_with_tag e (Tag_bpmn "conditionExpression") with
  | Some condition =>
      match element_text condition with
      | Some text => Ok (Some (tidy_condition text))
      | None => Raise AttributeError
      end
  | None => Ok None
  end.

(** [Edge.from_element] *)
Definition Edge_from_element (e : element) : result Edge :=
  condition_text <- Edge_get_condition e ;;
  id <- attrib_item e "id" ;;
  source <- attrib_item e "sourceRef" ;;
  target <- attrib_item e "targetRef" ;;
  Ok (mkEdge id (attrib_get e "name") source target condition_text).

(** ** Graph: the container *)

(** [Graph.__add_item]: [if item] lets every object through and stops [None]. *)
Definition add_item (g : Graph) (it : option item) : Graph :=
  match it with
  | Some i => dict_set g (item_id i) i
  | None => g
  end.

(** [Graph.get_child_nodes]: the values that are instances of [Node]. *)
Definition get_child_nodes (g : Graph) : list Node :=
  flat_map (fun it => match it with ItemNode n => [n] | _ => [] end) (dict_values g).

(** [Graph.get_child_nodes_with_tag] *)
Definition get_child_nodes_with_tag (g : Graph) (tag : string) : list Node :=
  filter (fun n => String.eqb (node_tag n) tag) (get_child_nodes g).

(** [Graph.get_item] *)
Definition get_item (g : Graph) (item_id : string) : option item := dict_get g item_id.

(** [Graph.ids] *)
Definition ids (g : Graph) : list string := dict_keys g.

(** [id_set.intersection(adjacent_set)] is not empty *)
Definition intersects (id_list adjacent : list string) : bool :=
  existsb (fun x => existsb (String.eqb x) adjacent) id_list.

(** [Graph.remove_adjacent]: the loop adds the kept items to a fresh [Graph]. *)
Definition remove_adjacent (g : Graph) (id_list : list string) : Graph :=
  fold_left
    (fun result kv =>
       if intersects id_list (item_adjacent (snd kv)) then result
       else add_item result (Some (snd kv)))
    g [].

(** [Graph.get_edges]: a filter is applied when its argument is truthy, so
    [None] and the empty string both mean no filter. *)
Definition get_edges (g : Graph) (source_id target_id : option string) : list Edge :=
  let edges :=
    flat_map (fun it => match it with ItemEdge e => [e] | _ => [] end) (dict_values g) in
  let edges :=
    match source_id with
    | Some s =>
        if str_truthy s then filter (fun e => String.eqb (edge_source_node e) s) edges
        else edges
    | None => edges
    end in
  match target_id with
  | Some t =>
      if str_truthy t then filter (fun e => String.eqb (edge_target_node e) t) edges
      else edges
  | None => edges
  end.

(** [Graph.get_downstream_nodes] *)
Definition get_downstream_nodes (g : Graph) (node_id : string) : list string :=
  map edge_target_node (get_edges g (Some node_id) None).

(** ** Subprocess *)

(** [l[0]] *)
Definition first {A : Type} (l : list A) : result A :=
  match l with
  | a :: _ => Ok a
  | [] => Raise IndexError
  end.

(** [Subprocess.__init__], with the class counter [__subgraph_index] passed
    in: the new object takes its value, the caller stores the successor. *)
Definition Subprocess_init (id name : string) (children : Graph) (index : nat)
  : result item :=
  start_node <- first (get_child_nodes_with_tag children (Tag_repr (Tag_bpmn "startEvent"))) ;;
  end_node <- first (get_child_nodes_with_tag children (Tag_repr (Tag_bpmn "endEvent"))) ;;
  Ok (ItemSubprocess id name children start_node end_node index).

(** ** Element dispatch *)

(** Construction runs with the class counter as state; an exception leaves
    the counter as it was when it was raised. *)
Definition build (A : Type) : Type := nat -> result A * nat.

Definition build_pure {A : Type} (m : result A) : build A := fun idx => (m, idx).

Definition build_bind {A B : Type} (m : build A) (f : A -> build B) : build B :=
  fun idx =>
    match m idx with
    | (Ok a, idx') => f a idx'
    | (Raise x, idx') => (Raise x, idx')
    end.

(** [Subprocess.from_element]; [children_graph] is [Graph(element)]. *)
Definition Subprocess_from_element (children_graph : build Graph) (e : element)
  : build item :=
  build_bind children_graph (fun children =>
  build_bind (build_pure (attrib_item e "id")) (fun id =>
  build_bind (build_pure (attrib_item e "name")) (fun name =>
  fun idx =>
    match Subprocess_init id name children idx with
    | Ok sp => (Ok sp, S idx)
    | Raise x => (Raise x, idx)
    end))).

Definition handle_subProcess (children_graph : build Graph) (e : element) : build item :=
  if element_is_subprocess e then Subprocess_from_element children_graph e
  else build_pure (Raise UnsuitableHandlerException).

Definition handle_boundaryEvent (e : element) : result item :=
  if String.eqb (element_tag e) (Tag_repr (Tag_bpmn "boundaryEvent"))
  then n <- BoundaryEvent_from_element e ;; Ok (ItemNode n)
  else Raise UnsuitableHandlerException.

Definition handle_serviceTask (e : element) : result item :=
  if String.eqb (element_tag e) (Tag_repr (Tag_bpmn "serviceTask"))
  then n <- ServiceTask_from_element e ;; Ok (ItemNode n)
  else Raise UnsuitableHandlerException.

Definition handle_userTask (e : element) : result item :=
  if String.eqb (element_tag e) (Tag_repr (Tag_bpmn "userTask"))
  then n <- UserTask_from_element e ;; Ok (ItemNode n)
  else Raise UnsuitableHandlerException.

Definition handle_callActivity (e : element) : result item :=
  if String.eqb (element_tag e) (Tag_repr (Tag_bpmn "callActivity"))
  then n <- CallActivity_from_element e ;; Ok (ItemNode n)
  else Raise UnsuitableHandlerException.

Definition handle_intermediateCatchEvent (e : element) : result item :=
  if String.eqb (element_tag e) (Tag_repr (Tag_bpmn "intermediateCatchEvent"))
  then n <- IntermediateCatchEvent_from_element e ;; Ok (ItemNode n)
  else Raise UnsuitableHandlerException.

Definition handle_node (e : element) : result item :=
  if element_has_attribs e ["id"]
  then n <- Node_from_element e ;; Ok (ItemNode n)
  else Raise UnsuitableHandlerException.

Definition handle_coloured_node (colour : string) (e : element) : result item :=
  node <- handle_node e ;;
  match node with
  | ItemNode n => Ok (ItemNode (Node_set_colour n (Some colour)))
  | other => Ok other
  end.

Definition handle_edge (e : element) : result item :=
  if element_has_attribs e ["id"; "sourceRef"; "targetRef"]
  then ed <- Edge_from_element e ;; Ok (ItemEdge ed)
  else Raise UnsuitableHandlerException.

Definition handle_gateway (e : element) : result item :=
  n <- Gateway_from_element e ;; Ok (ItemNode n).

(** The functions that [__get_handler_fn] can return: the module-level
    functions whose name starts with [handle_], and the [partial]
    applications of [handle_coloured_node] in [TAG_HANDLERS]. *)
Inductive handler : Type :=
| fn_handle_subProcess
| fn_handle_boundaryEvent
| fn_handle_serviceTask
| fn_handle_userTask
| fn_handle_callActivity
| fn_handle_intermediateCatchEvent
| fn_handle_coloured_node
| fn_handle_node
| fn_handle_edge
| fn_handle_gateway
| fn_partial_handle_coloured_node (colour : string).

(** [globals()[fn_name]] for a name that starts with [handle_]: [None] stands
    for the [KeyError] that [__get_handler_fn] catches. *)
Definition globals (fn_name : string) : option handler :=
  dict_get
    [("handle_subProcess", fn_handle_subProcess);
     ("handle_boundaryEvent", fn_handle_boundaryEvent);
     ("handle_serviceTask", fn_handle_serviceTask);
     ("handle_userTask", fn_handle_userTask);
     ("handle_callActivity", fn_handle_callActivity);
     ("handle_intermediateCatchEvent", fn_handle_intermediateCatchEvent);
     ("handle_coloured_node", fn_handle_coloured_node);
     ("handle_node", fn_handle_node);
     ("handle_edge", fn_handle_edge);
     ("handle_gateway", fn_handle_gateway)]
    fn_name.

Definition TAG_HANDLERS : list (string * handler) :=
  [("exclusiveGateway", fn_handle_gateway);
   ("parallelGateway", fn_handle_gateway);
   ("startEvent", fn_partial_handle_coloured_node "#d1ffd1");
   ("endEvent", fn_partial_handle_coloured_node "#ffd1d1")].

Definition OTHER_HANDLERS : list (element -> result item) :=
  [handle_edge; handle_node].

(** [Graph.__get_handler_fn] *)
Definition get_handler_fn (e : element) : result (option handler) :=
  tag <- Tag_from_element e ;;
  match globals ("handle_" ++ Tag_tag tag) with
  | Some fn => Ok (Some fn)
  | None => Ok (dict_get TAG_HANDLERS (Tag_tag tag))
  end.

(** [handler_fn(element)]. [handle_coloured_node] itself takes two
    arguments: called with one it is a [TypeError]. *)
Definition call_handler (children_graph : build Graph) (fn : handler) (e : element)
  : build item :=
  match fn with
  | fn_handle_subProcess => handle_subProcess children_graph e
  | fn_handle_boundaryEvent => build_pure (handle_boundaryEvent e)
  | fn_handle_serviceTask => build_pure (handle_serviceTask e)
  | fn_handle_userTask => build_pure (handle_userTask e)
  | fn_handle_callActivity => build_pure (handle_callActivity e)
  | fn_handle_intermediateCatchEvent => build_pure (handle_intermediateCatchEvent e)
  | fn_handle_coloured_node => build_pure (Raise TypeError)
  | fn_handle_node => build_pure (handle_node e)
  | fn_handle_edge => build_pure (handle_edge e)
  | fn_handle_gateway => build_pure (handle_gateway e)
  | fn_partial_handle_coloured_node colour => build_pure (handle_coloured_node colour e)
  end.

(** The loop over [OTHER_HANDLERS] in [__process_element]: only
    [UnsuitableHandlerException] is caught; a loop that runs out returns
    [None]. *)
Fixpoint try_handlers (handlers : list (element -> result item)) (e : element)
  : result (option item) :=
  match handlers with
  | [] => Ok None
  | handler_fn :: rest =>
      match handler_fn e with
      | Ok it => Ok (Some it)
      | Raise UnsuitableHandlerException => try_handlers rest e
      | Raise x => Raise x
      end
  end.

(** The body of [Graph.__process_element], given [Graph(element)] for the
    handler that needs it. *)
Definition process_element_with (children_graph : build Graph) (e : element)
  : build (option item) :=
  build_bind (build_pure (get_handler_fn e)) (fun handler_fn =>
    match handler_fn with
    | Some fn => build_bind (call_handler children_graph fn e)
                            (fun it => build_pure (Ok (Some it)))
    | None => build_pure (try_handlers OTHER_HANDLERS e)
    end).

Section GraphInit.
Variable process : element -> build (option item).

(** The loop of [Graph.__init__]: [add_element] on every child in turn. *)
Fixpoint add_elements (g : Graph) (elements : list element) : build Graph :=
  match elements with
  | [] => build_pure (Ok g)
  | e :: rest =>
      build_bind (process e) (fun it => add_elements (add_item g it) rest)
  end.
End GraphInit.

(** [Graph.__process_element] *)
Fixpoint process_element (e : element) : build (option item) :=
  match e with
  | Element _ _ _ children =>
      process_element_with (add_elements process_element [] children) e
  end.

(** [Graph(root)] *)
Definition Graph_init (root : element) : build Graph :=
  add_elements process_element [] (element_children root).

(** ** Rendering: labels and edges *)

(** [sep.join(parts)] *)
Fixpoint join (sep : string) (parts : list string) : string :=
  match parts with
  | [] => EmptyString
  | [p] => p
  | p :: rest => p ++ sep ++ join sep rest
  end.

(** How an f-string prints an optional [str]. *)
Definition format_opt (o : option string) : string :=
  match o with Some s => s | None => "None" end.

(** [Node.get_label]; it does not read [params]. *)
Definition Node_get_label (n : Node) (include_extras : bool) : string :=
  let extras_label :=
    match node_extras n with
    | Some ((_ :: _) as extras) =>
        if include_extras
        then String LF (join (String LF "")
                             (map (fun kv => fst kv ++ ": " ++ format_opt (snd kv)) extras))
        else ""
    | _ => ""
    end in
  if node_show_id n
  then node_name n ++ DOT_BREAK ++ "id: " ++ node_id n ++ extras_label
  else node_name n.

(** [ServiceTask.get_label] *)
Definition ServiceTask_get_label (n : Node) (params : params_t) : string :=
  let label := Node_get_label n false in
  let java_class :=
    match node_extras n with
    | Some extras => match dict_get extras "class" with Some v => v | None => None end
    | None => None
    end in
  match java_class with
  | Some c =>
      if str_truthy c
      then
        let java_label :=
          if negb (params_truthy params) || negb (params_flag params "show_package_names")
          then last_segment c else c in
        label ++ DOT_BREAK ++ "class: " ++ java_label
      else label
  | None => label
  end.

(** [UserTask.__get_class_name]: [split] on an absent class name is an
    attribute error; with package names shown the value is returned as it
    is, [None] included. *)
Definition UserTask_get_class_name (class_name : option string) (params : params_t)
  : result (option string) :=
  if negb (params_truthy params) || negb (params_flag params "show_package_names")
  then match class_name with
       | Some c => Ok (Some (last_segment c))
       | None => Raise AttributeError
       end
  else Ok class_name.

(** [UserTask.get_label] *)
Definition UserTask_get_label (n : Node) (task_listeners : list TaskListener)
    (params : params_t) : result string :=
  let label := Node_get_label n true in
  task_listener_text <-
    (if negb (params_truthy params) || params_flag params "show_task_listeners"
     then
       match task_listeners with
       | _ :: _ =>
           lines <- map_result
                      (fun listener =>
                         c <- UserTask_get_class_name (listener_class_name listener) params ;;
                         Ok (listener_event listener ++ ": " ++ format_opt c))
                      task_listeners ;;
           Ok (String LF (join (String LF "") lines))
       | [] => Ok ""
       end
     else Ok "") ;;
  Ok (label ++ task_listener_text).

(** [node.get_label(params=params)] by the class of the node. *)
Definition get_label (n : Node) (params : params_t) : result string :=
  match node_cls n with
  | UserTask task_listeners => UserTask_get_label n task_listeners params
  | ServiceTask => Ok (ServiceTask_get_label n params)
  | _ => Ok (Node_get_label n true)
  end.

(** The endpoint that [Edge.to_dot] writes for the nominal id [nominal]:
    [graph.get(nominal).<prop> if graph.get(nominal) else nominal]. *)
Definition resolve_endpoint (graph : Graph) (prop : item -> result string)
    (nominal : string) : result string :=
  match dict_get graph nominal with
  | Some it => prop it
  | None => Ok nominal
  end.

(** The label suffix of [Edge.to_dot] *)
Definition Edge_label (e : Edge) (params : params_t) : string :=
  let show_flows := if params_truthy params then params_flag params "show_flows" else false in
  let label_components :=
    ((if opt_truthy (edge_name e) then [format_opt (edge_name e)] else []) ++
     (if opt_truthy (edge_condition e) then [format_opt (edge_condition e)] else []) ++
     (if show_flows then [edge_id e] else []))%list in
  let label_text :=
    match label_components with
    | [] => None
    | _ => Some (join DOT_BREAK label_components)
    end in
  if opt_truthy label_text
  then " [label=" ++ String DQUOTE (format_opt label_text) ++ String DQUOTE "]"
  else "".

(** [Edge.to_dot]; [graph] is the [__graph] dictionary that [Graph.save]
    passes down, [None] or empty when there is none. *)
Definition Edge_to_dot (e : Edge) (graph : option Graph) (params : params_t)
  : result string :=
  endpoints <-
    match graph with
    | Some ((_ :: _) as g) =>
        source_node <- resolve_endpoint g item_end_node_id (edge_source_node e) ;;
        target_node <- resolve_endpoint g item_start_node_id (edge_target_node e) ;;
        Ok (source_node, target_node)
    | _ => Ok (edge_source_node e, edge_target_node e)
    end ;;
  Ok (fst endpoints ++ " -> " ++ snd endpoints ++ Edge_label e params).

(** ** Error-handling removal *)

(** The condition of the comprehension in [remove_error_handling]:
    [isinstance(subprocess, Subprocess) and subprocess.name == name]. *)
Definition is_exception_subprocess (exception_subprocess_name : string) (it : item)
  : bool :=
  match it with
  | ItemSubprocess _ name _ _ _ _ => String.eqb name exception_subprocess_name
  | _ => false
  end.

(** [remove_error_handling] of [bpm_diagram.py] *)
Definition remove_error_handling (graph : Graph) (exception_subprocess_name : string)
  : Graph :=
  let boundary_events :=
    get_child_nodes_with_tag graph (Tag_repr (Tag_bpmn "boundaryEvent")) in
  let event_ids := map node_id boundary_events in
  let exception_subprocesses :=
    filter (is_exception_subprocess exception_subprocess_name) (dict_values graph) in
  let sp_ids := map item_id exception_subprocesses in
  let downstream := map (get_downstream_nodes graph) sp_ids in
  remove_adjacent graph (event_ids ++ sp_ids ++ concat downstream)%list.

(** ** Sample condition text *)



(** ** Invariants and specifications *)

(** The invariant of the [__graph] dictionary: [__add_item] files every item
    under its own id, and a dictionary holds no key twice. *)
Definition Graph_wf (g : Graph) : Prop :=
  NoDup (dict_keys g) /\ Forall (fun kv => fst kv = item_id (snd kv)) g.

(** The entries that [remove_adjacent] keeps. *)
Definition kept (id_list : list string) (kv : string * item) : bool :=
  negb (intersects id_list (item_adjacent (snd kv))).


(** The removal set of error-handling removal, as the specification words
    it: the ids of the boundary events (the nodes that carry the
    [boundaryEvent] tag), the ids of the subprocesses with the configured
    name, and the targets of the edges that leave such a subprocess. *)
Definition in_removal_set (g : Graph) (exception_subprocess_name : string)
    (x : string) : Prop :=
  (exists n, In (ItemNode n) (dict_values g) /\
             node_tag n = Tag_repr (Tag_bpmn "boundaryEvent") /\ node_id n = x) \/
  (exists sp, In sp (dict_values g) /\
              is_exception_subprocess exception_subprocess_name sp = true /\
              item_id sp = x) \/
  (exists sp e, In sp (dict_values g) /\
                is_exception_subprocess exception_subprocess_name sp = true /\
                In (ItemEdge e) (dict_values g) /\
                edge_source_node e = item_id sp /\ edge_target_node e = x).


(** An attribute is present with a value that is not the empty string. *)
Definition has_attrib (e : element) (a : string) : Prop :=
  exists v, attrib_get e a = Some v /\ v <> "".

(** In a graph built from elements, the nodes that carry the
    [boundaryEvent] tag are the objects of class [BoundaryEvent]. *)
Definition boundary_by_tag (g : Graph) : Prop :=
  Forall (fun kv =>
            forall n, snd kv = ItemNode n ->
                      (node_tag n = Tag_repr (Tag_bpmn "boundaryEvent") <->
                       exists attached, node_cls n = BoundaryEvent attached))
         g.




(** The four passes of [tidy_condition] over the unwrapped text. *)
Definition tidy_passes (s : string) : string :=
  replace "==" (String "=" (String "=" DOT_BREAK))
    (replace "||" (String "|" (String "|" DOT_BREAK))
       (replace "&&" (String "&" (String "&" DOT_BREAK))
          (replace (String DQUOTE "") (String BACKSLASH (String DQUOTE "")) s))).

(** The first character of [s] is [c]. *)
Definition hd_eqb (c : ascii) (s : string) : bool :=
  match s with
  | String a _ => Ascii.eqb a c
  | EmptyString => false
  end.

(** The two sides of an edge. *)
Inductive side : Type := SourceSide | TargetSide.

(** The endpoint that the rendering of an edge shows for a nominal id, by
    what the top-level mapping holds under that id: the id itself for a
    node, the id of the inner end event (source side) or start event (target
    side) for a subprocess, and the id itself when the mapping has no such
    key. *)
Inductive rendered_endpoint (g : Graph) (s : side) (nominal : string) : string -> Prop :=
| endpoint_node (n : Node) :
    dict_get g nominal = Some (ItemNode n) ->
    rendered_endpoint g s nominal nominal
| endpoint_subprocess (id name : string) (children : Graph)
                      (start_node end_node : Node) (index : nat) :
    dict_get g nominal = Some (ItemSubprocess id name children start_node end_node index) ->
    rendered_endpoint g s nominal
      (match s with
       | SourceSide => node_id end_node
       | TargetSide => node_id start_node
       end)
| endpoint_absent :
    dict_get g nominal = None ->
    rendered_endpoint g s nominal nominal.

(** ** Sample documents *)

Definition bpmn (local : string) : string := Tag_repr (Tag_bpmn local).

(** An element in the BPMN namespace without text. *)
Definition xml (local : string) (attrib : list (string * string))
    (children : list element) : element :=
  Element (bpmn local) attrib None children.

(** A process with a service task, a boundary event on it that leads into
    the exception subprocess, and two tasks below the subprocess. *)
Definition sample_process : element :=
  xml "process" [("id", "p")]
    [xml "startEvent" [("id", "S")] [];
     xml "serviceTask" [("id", "T"); ("name", "Work");
                        ("{http://activiti.org/bpmn}class", "com.acme.Foo")] [];
     xml "endEvent" [("id", "E")] [];
     xml "sequenceFlow" [("id", "f1"); ("sourceRef", "S"); ("targetRef", "T")] [];
     xml "sequenceFlow" [("id", "f2"); ("sourceRef", "T"); ("targetRef", "E")] [];
     xml "boundaryEvent" [("id", "B"); ("name", "error"); ("attachedToRef", "T")] [];
     xml "subProcess" [("id", "H"); ("name", "Handle Exception")]
       [xml "startEvent" [("id", "HS")] [];
        xml "endEvent" [("id", "HE")] [];
        xml "sequenceFlow" [("id", "hf"); ("sourceRef", "HS"); ("targetRef", "HE")] []];
     xml "sequenceFlow" [("id", "f3"); ("sourceRef", "B"); ("targetRef", "H")] [];
     xml "task" [("id", "C"); ("name", "Report")] [];
     xml "sequenceFlow" [("id", "f4"); ("sourceRef", "H"); ("targetRef", "C")] [];
     xml "task" [("id", "D"); ("name", "Archive")] [];
     xml "sequenceFlow" [("id", "f5"); ("sourceRef", "C"); ("targetRef", "D")] []].

(** The graph of a document, empty when the construction raises. *)
Definition graph_of (root : element) : Graph :=
  match Graph_init root 0 with
  | (Ok g, _) => g
  | (Raise _, _) => []
  end.

Definition sample_graph : Graph := graph_of sample_process.

(** A [serviceTask] element of the Activiti namespace among the children of
    a process. *)
Definition foreign_serviceTask : element :=
  Element "{http://activiti.org/bpmn}serviceTask" [("id", "t1"); ("name", "Task")] None [].

Definition foreign_process : element :=
  xml "process" [("id", "p")]
    [xml "startEvent" [("id", "S")] []; foreign_serviceTask; xml "endEvent" [("id", "E")] []].

(** A subprocess with two start events. *)
Definition two_starts_subProcess : element :=
  xml "subProcess" [("id", "sp"); ("name", "Sub")]
    [xml "startEvent" [("id", "s1")] [];
     xml "startEvent" [("id", "s2")] [];
     xml "endEvent" [("id", "e1")] []].


(** Elements of every node class without a [name] attribute. *)
Definition unnamed (local : string) (attrib : list (string * string)) : element :=
  xml local (("id", "n1") :: attrib) [].

(** A process whose exception subprocess has the empty string as its id,
    beside a flow from [a] to [b] that has nothing to do with it. *)
Definition empty_id_process : element :=
  xml "process" [("id", "p")]
    [xml "task" [("id", "a"); ("name", "A")] [];
     xml "task" [("id", "b"); ("name", "B")] [];
     xml "sequenceFlow" [("id", "f"); ("sourceRef", "a"); ("targetRef", "b")] [];
     xml "subProcess" [("id", ""); ("name", "Handle Exception")]
       [xml "startEvent" [("id", "hs")] []; xml "endEvent" [("id", "he")] []]].

(** A user task with a task listener that has an event and an expression
    and no class. *)
Definition expression_listener_userTask : element :=
  xml "userTask" [("id", "u1"); ("name", "Review")]
    [xml "extensionElements" []
       [Element "{http://activiti.org/bpmn}taskListener"
                [("event", "create"); ("expression", "${notifier.send(task)}")] None []]].


(** The item of the sample graph under a key. *)
Definition sample_item (k : string) : item :=
  match dict_get sample_graph k with
  | Some it => it
  | None => ItemEdge (mkEdge "" None "" "" None)
  end.

(** The flow [f3] of the sample process, from the boundary event to the
    exception subprocess. *)
Definition sample_flow : Edge := mkEdge "f3" None "B" "H" None.

(** The graph of the process whose exception subprocess has the empty id. *)
Definition empty_id_graph : Graph := graph_of empty_id_process.

(** ** Rendering: nodes, subprocesses and graphs *)

(** A text between double quotes, as the f-strings of the [to_dot] methods
    write it. *)
Definition quoted (s : string) : string := String DQUOTE (s ++ String DQUOTE "").

(** [str(n)] of a cluster index. *)
Definition str_of_nat (n : nat) : string := NilZero.string_of_uint (Nat.to_uint n).

(** [get_shape]: [UserTask] overrides the [box] of [Node]. *)
Definition get_shape (n : Node) : string :=
  match node_cls n with
  | UserTask _ => "ellipse"
  | _ => "box"
  end.

(** [Node.to_dot], which the classes without a [to_dot] of their own share. *)
Definition Node_to_dot (n : Node) (params : params_t) : result string :=
  let colour_text :=
    if opt_truthy (node_colour n)
    then ", fillcolor=" ++ quoted (format_opt (node_colour n)) ++ ", style=" ++ quoted "filled"
    else "" in
  label <- get_label n params ;;
  Ok (node_id n ++ " [label=" ++ quoted label ++ ", shape=" ++ quoted (get_shape n)
              ++ colour_text ++ "]").

(** [Gateway.__LABELS] *)
Definition Gateway_LABELS : list (string * string) :=
  [("exclusiveGateway", "X"); ("parallelGateway", "+")].

(** [Gateway.to_dot]: the glyph is looked up by the local name of the tag, a
    name without glyph prints as [None]. *)
Definition Gateway_to_dot (n : Node) : result string :=
  tag <- Tag_from_string (node_tag n) ;;
  let label := dict_get Gateway_LABELS (Tag_tag tag) in
  Ok (node_id n ++ " [shape=" ++ quoted "diamond" ++ ", label="
              ++ quoted (format_opt label) ++ "]").

(** [BoundaryEvent.to_dot]: the node and an edge named [boundary] from the
    activity it is attached to. *)
Definition BoundaryEvent_to_dot (n : Node) (attached : string) (graph : option Graph)
    (params : params_t) : result string :=
  let edge := mkEdge "boundary" None attached (node_id n) None in
  edge_dot <- Edge_to_dot edge graph params ;;
  Ok (node_id n ++ " [shape=" ++ quoted "circle" ++ ", label=" ++ quoted "~" ++ "]"
              ++ String LF edge_dot).

(** [node.to_dot(graph=graph, params=params)] by the class of the node. *)
Definition node_to_dot (n : Node) (graph : option Graph) (params : params_t)
  : result string :=
  match node_cls n with
  | BoundaryEvent attached => BoundaryEvent_to_dot n attached graph params
  | Gateway => Gateway_to_dot n
  | _ => Node_to_dot n params
  end.

(** The text of [Subprocess.to_dot] around the rendering of its children. *)
Definition Subprocess_frame (name : string) (index : nat) (children_dot : string)
  : string :=
  join (String LF "")
       ["subgraph cluster" ++ str_of_nat index ++ " {";
        "label=" ++ quoted name;
        "style=" ++ quoted "filled" ++ String LF "";
        "fillcolor=" ++ quoted "#f2f2f2";
        children_dot;
        String "}" (String LF "")].

(** [item.to_dot(graph=graph, params=params)]. A [Subprocess] renders its
    children with [Graph.to_dot] and hands the mapping it was given on. *)
Fixpoint item_to_dot (graph : option Graph) (params : params_t) (it : item)
  : result string :=
  match it with
  | ItemNode n => node_to_dot n graph params
  | ItemEdge e => Edge_to_dot e graph params
  | ItemSubprocess _ name children _ _ index =>
      fragments <-
        (fix values_to_dot (entries : list (string * item)) : result (list string) :=
           match entries with
           | [] => Ok []
           | kv :: rest =>
               fragment <- item_to_dot graph params (snd kv) ;;
               fragments <- values_to_dot rest ;;
               Ok (fragment :: fragments)
           end) children ;;
      Ok (Subprocess_frame name index (join (String LF "") fragments))
  end.

(** [Graph.to_dot] *)
Definition Graph_to_dot (g : Graph) (graph : option Graph) (params : params_t)
  : result string :=
  fragments <- map_result (item_to_dot graph params) (dict_values g) ;;
  Ok (join (String LF "") fragments).

Definition DOT_HEADERS : list string :=
  ["fontname = " ++ quoted "sans";
   "node[shape = " ++ quoted "box" ++ ", fontname = " ++ quoted "sans" ++ "]";
   "edge[fontname = " ++ quoted "sans" ++ "]"].

(** [Graph.save]: the text that the output file holds afterwards, with the
    exception that left the method, if any. The file is opened and the
    header written before [to_dot] runs. *)
Definition save (g : Graph) (params : params_t) : string * result unit :=
  let header :=
    "digraph G {" ++ String LF (String.concat "" (map (fun h => h ++ String LF "") DOT_HEADERS)) in
  match Graph_to_dot g (Some g) params with
  | Ok body => (header ++ body ++ String "}" (String LF ""), Ok tt)
  | Raise x => (header, Raise x)
  end.

(** [Graph.get_first_node] and [Graph.get_last_node] *)
Definition get_first_node (g : Graph) : result Node := first (get_child_nodes g).

Definition get_last_node (g : Graph) : result Node :=
  match rev (get_child_nodes g) with
  | n :: _ => Ok n
  | [] => Raise IndexError
  end.

(** [len(graph)] *)
Definition Graph_len (g : Graph) : nat := List.length g.

(** The cluster indices of a [Subprocess] and of the subprocesses below it. *)
Fixpoint item_indices (it : item) : list nat :=
  match it with
  | ItemSubprocess _ _ children _ _ index =>
      index ::
      (fix entries_indices (entries : list (string * item)) : list nat :=
         match entries with
         | [] => []
         | kv :: rest => (item_indices (snd kv) ++ entries_indices rest)%list
         end) children
  | _ => []
  end.

Definition graph_indices (g : Graph) : list nat :=
  flat_map (fun kv => item_indices (snd kv)) g.


(** The id list that [remove_error_handling] hands to [remove_adjacent]. *)
Definition removal_ids (g : Graph) (exception_subprocess_name : string) : list string :=
  (map node_id (get_child_nodes_with_tag g (Tag_repr (Tag_bpmn "boundaryEvent"))) ++
   map item_id (filter (is_exception_subprocess exception_subprocess_name) (dict_values g)) ++
   concat (map (get_downstream_nodes g)
               (map item_id (filter (is_exception_subprocess exception_subprocess_name)
                                    (dict_values g)))))%list.


(** The indices in [l] are pairwise different and lie in [lo, hi). *)
Definition indices_in (lo hi : nat) (l : list nat) : Prop :=
  NoDup l /\ forall i, In i l -> lo <= i < hi.


(** What holds of one call of [__process_element]: the counter does not go
    down, and a returned item holds distinct indices from the old counter
    up to, and not including, the new one. *)
Definition counts (e : element) : Prop :=
  forall idx r idx',
    process_element e idx = (r, idx') ->
    idx <= idx' /\
    forall it, r = Ok (Some it) -> indices_in idx idx' (item_indices it).


(** ** When rendering goes through *)

(** The mapping holds an [Edge] under [id]. *)
Definition names_edge (graph : option Graph) (id : string) : bool :=
  match graph with
  | Some g => match dict_get g id with Some (ItemEdge _) => true | _ => false end
  | None => false
  end.

(** Neither endpoint is the id of an edge of the mapping. *)
Definition endpoints_render (graph : option Graph) (source target : string) : bool :=
  negb (names_edge graph source) && negb (names_edge graph target).

(** The task listeners are hidden, or the class names are shown in full, or
    every listener has a class name. *)
Definition listeners_render (params : params_t) (task_listeners : list TaskListener)
  : bool :=
  negb (negb (params_truthy params) || params_flag params "show_task_listeners")
  || negb (negb (params_truthy params) || negb (params_flag params "show_package_names"))
  || forallb (fun l => match listener_class_name l with Some _ => true | None => false end)
             task_listeners.

Definition node_renders (graph : option Graph) (params : params_t) (n : Node) : bool :=
  match node_cls n with
  | BoundaryEvent attached => endpoints_render graph attached (node_id n)
  | Gateway => is_ok (Tag_from_string (node_tag n))
  | UserTask task_listeners => listeners_render params task_listeners
  | _ => true
  end.

(** The condition on an item and, for a subprocess, on all items below it. *)
Fixpoint item_renders (graph : option Graph) (params : params_t) (it : item) : bool :=
  match it with
  | ItemNode n => node_renders graph params n
  | ItemEdge e => endpoints_render graph (edge_source_node e) (edge_target_node e)
  | ItemSubprocess _ _ children _ _ _ =>
      (fix all (entries : list (string * item)) : bool :=
         match entries with
         | [] => true
         | kv :: rest => item_renders graph params (snd kv) && all rest
         end) children
  end.

(** The text that [Graph.save] writes before it renders the graph. *)
Definition save_header : string :=
  "digraph G {" ++ String LF (String.concat "" (map (fun h => h ++ String LF "") DOT_HEADERS)).


(** The line that opens the cluster of a subprocess in [Subprocess.to_dot]. *)
Definition cluster_line (index : nat) : string :=
  "subgraph cluster" ++ str_of_nat index ++ " {".

(** * Properties *)

(** ** Strings *)

Section StringFacts.
Variable c : ascii.

Lemma str_contains_app (x y : string) :
  str_contains c (x ++ y) = str_contains c x || str_contains c y.
Proof.
  induction x as [|a x IH]; simpl; [reflexivity|].
  rewrite IH. apply orb_assoc.
Qed.

Lemma rsplit_none (s : string) :
  rsplit c s = None <-> str_contains c s = false.
Proof.
  induction s as [|a s IH]; simpl; [tauto|].
  destruct (rsplit c s) as [[x y]|].
  - destruct (str_contains c s).
    + rewrite orb_true_r. split; discriminate.
    + destruct IH as [_ IH]. discriminate IH. reflexivity.
  - destruct IH as [IH _]. rewrite (IH eq_refl), orb_false_r.
    destruct (Ascii.eqb a c); split; congruence.
Qed.

(** A split is at an occurrence of [c] after which there is none. *)
Lemma rsplit_some (s x y : string) :
  rsplit c s = Some (x, y) ->
  s = x ++ String c y /\ str_contains c y = false.
Proof.
  revert x y. induction s as [|a s IH]; simpl; intros x y H; [discriminate|].
  destruct (rsplit c s) as [[x' y']|] eqn:E.
  - injection H as <- <-. destruct (IH _ _ eq_refl) as [-> Hy].
    split; [reflexivity | exact Hy].
  - destruct (Ascii.eqb a c) eqn:Ea; [|discriminate].
    injection H as <- <-. apply Ascii.eqb_eq in Ea. subst a.
    split; [reflexivity | apply rsplit_none, E].
Qed.

Lemma rsplit_app (x y : string) :
  str_contains c y = false -> rsplit c (x ++ String c y) = Some (x, y).
Proof.
  intros Hy. induction x as [|a x IH]; simpl.
  - apply rsplit_none in Hy. rewrite Hy, Ascii.eqb_refl. reflexivity.
  - rewrite IH. reflexivity.
Qed.

Lemma endswith_char_contains (s : string) :
  endswith_char c s = true -> str_contains c s = true.
Proof.
  induction s as [|a s IH]; simpl; [discriminate|].
  destruct s as [|b s].
  - intros ->. reflexivity.
  - intros H. rewrite (IH H). apply orb_true_r.
Qed.
End StringFacts.

(** ** Tag *)

(** What a successful match of the tag pattern returns: the two groups hold
    no line feed and the second no closing brace. *)
Lemma TAG_REGEX_match_groups (s ns local : string) :
  TAG_REGEX_match s = Some (ns, local) ->
  str_contains LF ns = false /\ str_contains LF local = false /\
  str_contains "}"%char local = false.
Proof.
  unfold TAG_REGEX_match. destruct s as [|a rest]; [discriminate|].
  destruct (Ascii.eqb a "{"%char) eqn:Ea.
  - apply Ascii.eqb_eq in Ea. subst a.
    set (body := if endswith_char LF rest then drop_last rest else rest).
    destruct (str_contains LF body) eqn:Hlf; [discriminate|].
    intros H. apply rsplit_some in H. destruct H as [Hb Hy].
    rewrite Hb, str_contains_app in Hlf. simpl in Hlf.
    apply orb_false_elim in Hlf. destruct Hlf as [H1 H2].
    auto.
  - intros H. exfalso.
    destruct a as [[] [] [] [] [] [] [] []]; try discriminate H.
    discriminate Ea.
Qed.

(** The string form of a tag whose fields are such groups parses back to it. *)
Lemma Tag_from_string_repr (t : Tag) :
  str_contains LF (Tag_namespace t) = false ->
  str_contains LF (Tag_tag t) = false ->
  str_contains "}"%char (Tag_tag t) = false ->
  Tag_from_string (Tag_repr t) = Ok t.
Proof.
  destruct t as [ns local]. simpl. intros Hns Hl Hb.
  unfold Tag_from_string, Tag_repr, TAG_REGEX_match. simpl.
  assert (Hc : str_contains LF (ns ++ String "}" local) = false).
  { rewrite str_contains_app. simpl. rewrite Hns, Hl. reflexivity. }
  destruct (endswith_char LF (ns ++ String "}" local)) eqn:He.
  - apply endswith_char_contains in He. congruence.
  - rewrite Hc, rsplit_app by exact Hb. reflexivity.
Qed.





(** ** The graph dictionary *)

Lemma dict_get_none_keys {V : Type} (d : list (string * V)) (k : string) :
  dict_get d k = None <-> ~ In k (dict_keys d).
Proof.
  unfold dict_keys.
  induction d as [|[k' v] d IH]; simpl; [tauto|].
  destruct (String.eqb k' k) eqn:E.
  - apply String.eqb_eq in E. split; [discriminate | tauto].
  - apply String.eqb_neq in E. tauto.
Qed.

Lemma dict_get_in {V : Type} (d : list (string * V)) (k : string) (v : V) :
  dict_get d k = Some v -> In (k, v) d.
Proof.
  induction d as [|[k' v'] d IH]; simpl; [discriminate|].
  destruct (String.eqb k' k) eqn:E.
  - apply String.eqb_eq in E. intros H. left. congruence.
  - auto.
Qed.

Lemma dict_set_fresh {V : Type} (d : list (string * V)) (k : string) (v : V) :
  ~ In k (dict_keys d) -> dict_set d k v = (d ++ [(k, v)])%list.
Proof.
  unfold dict_keys.
  induction d as [|[k' v'] d IH]; simpl; intros H; [reflexivity|].
  destruct (String.eqb k' k) eqn:E.
  - apply String.eqb_eq in E. tauto.
  - rewrite IH by tauto. reflexivity.
Qed.

Lemma dict_set_keys {V : Type} (d : list (string * V)) (k : string) (v : V) :
  dict_keys (dict_set d k v) =
  if existsb (String.eqb k) (dict_keys d) then dict_keys d
  else (dict_keys d ++ [k])%list.
Proof.
  induction d as [|[k' v'] d IH]; simpl; [reflexivity|].
  rewrite (String.eqb_sym k k').
  destruct (String.eqb k' k) eqn:E; simpl; [reflexivity|].
  rewrite IH. destruct (existsb (String.eqb k) (dict_keys d)); reflexivity.
Qed.

Lemma dict_set_in {V : Type} (d : list (string * V)) (k : string) (v : V)
    (kv : string * V) :
  In kv (dict_set d k v) -> kv = (k, v) \/ In kv d.
Proof.
  induction d as [|[k' v'] d IH]; simpl.
  - intros [H|[]]. left. symmetry. exact H.
  - destruct (String.eqb k' k) eqn:E; simpl.
    + apply String.eqb_eq in E. subst k'.
      intros [H|H]; [left; symmetry; exact H | right; right; exact H].
    + intros [H|H]; [tauto|]. destruct (IH H); tauto.
Qed.

Lemma existsb_eqb_in (k : string) (l : list string) :
  existsb (String.eqb k) l = true <-> In k l.
Proof.
  rewrite existsb_exists. split.
  - intros (x & Hx & E). apply String.eqb_eq in E. subst. exact Hx.
  - intros H. exists k. split; [exact H | apply String.eqb_refl].
Qed.

(** [__add_item] keeps the invariant. *)
Lemma add_item_wf (g : Graph) (it : option item) :
  Graph_wf g -> Graph_wf (add_item g it).
Proof.
  destruct it as [i|]; simpl; [|auto].
  intros [Hnd Hid]. split.
  - rewrite dict_set_keys.
    destruct (existsb (String.eqb (item_id i)) (dict_keys g)) eqn:E; [exact Hnd|].
    apply NoDup_app; [exact Hnd | repeat constructor; simpl; tauto |].
    intros x Hx [<-|[]].
    apply existsb_eqb_in in Hx. congruence.
  - apply Forall_forall. intros kv Hkv.
    apply dict_set_in in Hkv. destruct Hkv as [->|Hkv]; [reflexivity|].
    rewrite Forall_forall in Hid. auto.
Qed.

Lemma intersects_spec (id_list adjacent : list string) :
  intersects id_list adjacent = false <->
  forall x, In x id_list -> ~ In x adjacent.
Proof.
  unfold intersects. split.
  - intros H x Hx Ha.
    assert (E : existsb (fun x => existsb (String.eqb x) adjacent) id_list = true).
    { apply existsb_exists. exists x. split; [exact Hx|]. apply existsb_eqb_in, Ha. }
    congruence.
  - intros H. destruct (existsb _ id_list) eqn:E; [|reflexivity].
    apply existsb_exists in E. destruct E as (x & Hx & Ha).
    apply existsb_eqb_in in Ha. destruct (H x Hx Ha).
Qed.

(** The loop of [remove_adjacent] appends the kept entries to what it has. *)
Lemma remove_adjacent_loop (id_list : list string) (g acc : Graph) :
  Graph_wf (acc ++ g)%list ->
  fold_left
    (fun result kv =>
       if intersects id_list (item_adjacent (snd kv)) then result
       else add_item result (Some (snd kv)))
    g acc
  = (acc ++ filter (kept id_list) g)%list.
Proof.
  revert acc. induction g as [|[k it] g IH]; simpl; intros acc Hwf.
  - symmetry. apply app_nil_r.
  - assert (Hk : k = item_id it /\ ~ In k (dict_keys acc)).
    { destruct Hwf as [Hnd Hid]. split.
      - rewrite Forall_forall in Hid. apply (Hid (k, it)).
        apply in_or_app. right. left. reflexivity.
      - unfold dict_keys in Hnd. rewrite map_app in Hnd. simpl in Hnd.
        apply NoDup_remove_2 in Hnd. intros Hin. apply Hnd.
        apply in_or_app. left. exact Hin. }
    destruct Hk as [Hk Hfresh].
    unfold kept at 1. simpl.
    destruct (intersects id_list (item_adjacent it)) eqn:E; simpl.
    + apply IH. destruct Hwf as [Hnd Hid]. split.
      * unfold dict_keys in *. rewrite map_app in *. simpl in Hnd.
        apply NoDup_remove_1 in Hnd. exact Hnd.
      * rewrite Forall_app in *. destruct Hid as [H1 H2].
        inversion H2; subst. split; assumption.
    + rewrite <- Hk, dict_set_fresh by exact Hfresh.
      rewrite IH.
      * rewrite <- app_assoc. reflexivity.
      * rewrite <- app_assoc. exact Hwf.
Qed.

Lemma remove_adjacent_filter (g : Graph) (id_list : list string) :
  Graph_wf g -> remove_adjacent g id_list = filter (kept id_list) g.
Proof.
  intros Hwf. unfold remove_adjacent.
  rewrite remove_adjacent_loop; [reflexivity | exact Hwf].
Qed.

Lemma filter_wf (p : string * item -> bool) (g : Graph) :
  Graph_wf g -> Graph_wf (filter p g).
Proof.
  intros [Hnd Hid]. split.
  - clear Hid. induction g as [|kv g IH]; simpl; [constructor|].
    inversion Hnd as [|? ? Hn Hnd']; subst.
    destruct (p kv); simpl; [|auto].
    constructor; [|auto].
    intros Hin. apply Hn. unfold dict_keys in *.
    apply in_map_iff in Hin. destruct Hin as (kv' & E & Hin).
    apply filter_In in Hin. apply in_map_iff. exists kv'. tauto.
  - apply Forall_forall. intros kv Hkv. apply filter_In in Hkv.
    rewrite Forall_forall in Hid. apply Hid. tauto.
Qed.

Lemma remove_adjacent_in (g : Graph) (id_list : list string) (kv : string * item) :
  Graph_wf g ->
  In kv (remove_adjacent g id_list) <->
  In kv g /\ forall x, In x id_list -> ~ In x (item_adjacent (snd kv)).
Proof.
  intros Hwf. rewrite remove_adjacent_filter by exact Hwf.
  rewrite filter_In. unfold kept.
  rewrite negb_true_iff, intersects_spec. reflexivity.
Qed.

(** C2. On a graph that satisfies the dictionary invariant, [remove_adjacent]
    returns the entries whose [adjacent] list shares no id with the given
    ids, in their original order: the result is the input filtered. So no
    kept item touches the ids, every item that does not touch them is kept,
    and with no ids the result is the input graph. The input graph is a value
    that the function only reads, and the result satisfies the invariant
    again. *)
Theorem remove_adjacent_spec (g : Graph) (id_list : list string) :
  Graph_wf g ->
  remove_adjacent g id_list = filter (kept id_list) g /\
  Graph_wf (remove_adjacent g id_list) /\
  (forall kv, In kv (remove_adjacent g id_list) <->
              In kv g /\ forall x, In x id_list -> ~ In x (item_adjacent (snd kv))) /\
  remove_adjacent g [] = g.
Proof.
  intros Hwf.
  rewrite !remove_adjacent_filter by exact Hwf.
  split; [reflexivity|]. split; [apply filter_wf, Hwf|]. split.
  - intros kv. rewrite <- remove_adjacent_filter by exact Hwf.
    apply remove_adjacent_in, Hwf.
  - clear Hwf. induction g as [|kv g IH]; simpl; [reflexivity|].
    rewrite IH. reflexivity.
Qed.

(** ** Error-handling removal *)

Lemma get_child_nodes_in (g : Graph) (n : Node) :
  In n (get_child_nodes g) <-> In (ItemNode n) (dict_values g).
Proof.
  unfold get_child_nodes. rewrite in_flat_map. split.
  - intros (it & Hit & Hn). destruct it; simpl in Hn; try tauto.
    destruct Hn as [->|[]]. exact Hit.
  - intros H. exists (ItemNode n). split; [exact H | left; reflexivity].
Qed.

Lemma get_edges_in (g : Graph) (e : Edge) :
  In e (get_edges g None None) <-> In (ItemEdge e) (dict_values g).
Proof.
  unfold get_edges. rewrite in_flat_map. split.
  - intros (it & Hit & He). destruct it; simpl in He; try tauto.
    destruct He as [->|[]]. exact Hit.
  - intros H. exists (ItemEdge e). split; [exact H | left; reflexivity].
Qed.

(** With an id that is not the empty string, the downstream ids are the
    targets of the edges that leave it. *)
Lemma get_downstream_nodes_in (g : Graph) (node_id x : string) :
  node_id <> "" ->
  In x (get_downstream_nodes g node_id) <->
  exists e, In (ItemEdge e) (dict_values g) /\
            edge_source_node e = node_id /\ edge_target_node e = x.
Proof.
  intros Hne. unfold get_downstream_nodes. rewrite in_map_iff.
  assert (E : get_edges g (Some node_id) None =
              filter (fun e => String.eqb (edge_source_node e) node_id)
                     (get_edges g None None)).
  { unfold get_edges. destruct node_id; [congruence | reflexivity]. }
  rewrite E. split.
  - intros (e & Ht & He). apply filter_In in He. destruct He as [He Hs].
    apply String.eqb_eq in Hs. apply get_edges_in in He. eauto.
  - intros (e & He & Hs & Ht). exists e. split; [exact Ht|].
    apply filter_In. split; [apply get_edges_in, He | apply String.eqb_eq, Hs].
Qed.

(** With the empty string as id, no filter is applied: the downstream ids
    are the targets of all edges. *)
Lemma get_downstream_nodes_empty_id (g : Graph) :
  get_downstream_nodes g "" = map edge_target_node (get_edges g None None).
Proof. reflexivity. Qed.

(** The id list that [remove_error_handling] hands to [remove_adjacent] is
    the removal set, when no subprocess with the configured name has the
    empty string as its id. *)
Lemma remove_error_handling_ids (g : Graph) (name x : string) :
  (forall sp, In sp (dict_values g) ->
              is_exception_subprocess name sp = true -> item_id sp <> "") ->
  In x (map node_id (get_child_nodes_with_tag g (Tag_repr (Tag_bpmn "boundaryEvent"))) ++
        map item_id (filter (is_exception_subprocess name) (dict_values g)) ++
        concat (map (get_downstream_nodes g)
                    (map item_id (filter (is_exception_subprocess name) (dict_values g)))))%list
  <-> in_removal_set g name x.
Proof.
  intros Hne. unfold in_removal_set.
  rewrite !in_app_iff, in_concat, !in_map_iff.
  split.
  - intros [(n & Hid & Hn) | [(sp & Hid & Hsp) | (l & Hl & Hx)]].
    + left. unfold get_child_nodes_with_tag in Hn. apply filter_In in Hn.
      destruct Hn as [Hn Ht]. apply String.eqb_eq in Ht.
      apply get_child_nodes_in in Hn. eauto.
    + right. left. apply filter_In in Hsp. exists sp. tauto.
    + right. right. apply in_map_iff in Hl. destruct Hl as (id & <- & Hid).
      apply in_map_iff in Hid. destruct Hid as (sp & <- & Hsp).
      apply filter_In in Hsp. destruct Hsp as [Hsp Hex].
      apply get_downstream_nodes_in in Hx; [|auto].
      destruct Hx as (e & He & Hs & Ht). exists sp, e. tauto.
  - intros [(n & Hn & Ht & Hid) | [(sp & Hsp & Hex & Hid) | (sp & e & Hsp & Hex & He & Hs & Ht)]].
    + left. exists n. split; [exact Hid|].
      unfold get_child_nodes_with_tag. apply filter_In.
      split; [apply get_child_nodes_in, Hn | apply String.eqb_eq, Ht].
    + right. left. exists sp. split; [exact Hid|]. apply filter_In. tauto.
    + right. right. exists (get_downstream_nodes g (item_id sp)). split.
      * apply in_map_iff. exists (item_id sp). split; [reflexivity|].
        apply in_map_iff. exists sp. split; [reflexivity|]. apply filter_In. tauto.
      * apply get_downstream_nodes_in; [auto|]. eauto.
Qed.

(** Error-handling removal is a one-hop prune as long as no subprocess with
    the configured name has the empty string as its id: an entry stays exactly
    when none of its adjacent ids is in the removal set, so a node two hops
    below the exception subprocess stays unless it touches the set itself. *)
Theorem remove_error_handling_one_hop (g : Graph) (name : string) :
  Graph_wf g ->
  (forall sp, In sp (dict_values g) ->
              is_exception_subprocess name sp = true -> item_id sp <> "") ->
  forall kv, In kv (remove_error_handling g name) <->
             In kv g /\
             forall x, In x (item_adjacent (snd kv)) -> ~ in_removal_set g name x.
Proof.
  intros Hwf Hne kv. unfold remove_error_handling.
  rewrite remove_adjacent_in by exact Hwf.
  split; intros [Hkv H]; (split; [exact Hkv|]).
  - intros x Ha Hr. apply remove_error_handling_ids in Hr; [|exact Hne].
    exact (H x Hr Ha).
  - intros x Hr Ha. apply (H x Ha). apply remove_error_handling_ids; assumption.
Qed.

(** ** Element dispatch *)

Lemma process_element_eq (e : element) :
  process_element e =
  process_element_with (add_elements process_element [] (element_children e)) e.
Proof. destruct e. reflexivity. Qed.

(** The loop of [Graph.__init__] keeps the dictionary invariant, whatever
    the elements are. *)
Lemma add_elements_wf (process : element -> build (option item))
    (elements : list element) (g g' : Graph) (idx idx' : nat) :
  Graph_wf g ->
  add_elements process g elements idx = (Ok g', idx') ->
  Graph_wf g'.
Proof.
  revert g idx. induction elements as [|e rest IH]; simpl; intros g idx Hwf H.
  - unfold build_pure in H. injection H as <- _. exact Hwf.
  - unfold build_bind in H.
    destruct (process e idx) as [[it|x] idx1]; [|discriminate].
    apply IH in H; [exact H | apply add_item_wf, Hwf].
Qed.

Lemma Graph_wf_empty : Graph_wf [].
Proof. split; constructor. Qed.

Lemma Graph_init_wf (root : element) (g : Graph) (idx idx' : nat) :
  Graph_init root idx = (Ok g, idx') -> Graph_wf g.
Proof. apply add_elements_wf, Graph_wf_empty. Qed.

Lemma graph_of_wf (root : element) : Graph_wf (graph_of root).
Proof.
  unfold graph_of. destruct (Graph_init root 0) as [[g|x] idx] eqn:E.
  - eapply add_elements_wf; [apply Graph_wf_empty | exact E].
  - apply Graph_wf_empty.
Qed.

(** An exception of the first element ends the loop of [Graph.__init__]. *)
Lemma add_elements_raise (process : element -> build (option item))
    (e : element) (rest : list element) (g : Graph) (idx idx' : nat) (x : exn) :
  process e idx = (Raise x, idx') ->
  add_elements process g (e :: rest) idx = (Raise x, idx').
Proof. intros H. simpl. unfold build_bind. rewrite H. reflexivity. Qed.

(** With a handler found by tag name, [__process_element] returns what the
    handler returns and raises what it raises: nothing is caught. *)
Lemma process_element_dedicated (e : element) (fn : handler) (idx : nat) :
  get_handler_fn e = Ok (Some fn) ->
  process_element e idx =
  match call_handler (add_elements process_element [] (element_children e)) fn e idx with
  | (Ok it, idx') => (Ok (Some it), idx')
  | (Raise x, idx') => (Raise x, idx')
  end.
Proof.
  intros H. rewrite process_element_eq.
  unfold process_element_with, build_bind, build_pure. rewrite H.
  destruct (call_handler _ fn e idx) as [[it|x] idx']; reflexivity.
Qed.


(** C1. The claim fails on the code: the exception
    [UnsuitableHandlerException] is caught only in the loop over the generic
    handlers. The [serviceTask] element of another namespace is sent to
    [handle_serviceTask] by its local name, the handler finds the tag string
    different and raises, and the exception leaves [Graph.__init__]: the build
    of the process that holds the element between a start and an end event is
    aborted. *)
Theorem foreign_serviceTask_aborts_build :
  get_handler_fn foreign_serviceTask = Ok (Some fn_handle_serviceTask) /\
  handle_serviceTask foreign_serviceTask = Raise UnsuitableHandlerException /\
  process_element foreign_serviceTask 0 = (Raise UnsuitableHandlerException, 0) /\
  Graph_init foreign_process 0 = (Raise UnsuitableHandlerException, 0).
Proof.
  assert (Hfn : get_handler_fn foreign_serviceTask = Ok (Some fn_handle_serviceTask))
    by reflexivity.
  assert (Hh : handle_serviceTask foreign_serviceTask = Raise UnsuitableHandlerException)
    by reflexivity.
  assert (Hp : process_element foreign_serviceTask 0 = (Raise UnsuitableHandlerException, 0)).
  { rewrite (process_element_dedicated _ _ _ Hfn).
    unfold call_handler, build_pure. rewrite Hh. reflexivity. }
  split; [exact Hfn|]. split; [exact Hh|]. split; [exact Hp|].
  unfold Graph_init, foreign_process, xml. simpl element_children.
  change (add_elements process_element [] (?a :: ?l) 0)
    with (build_bind (process_element a) (fun it => add_elements process_element (add_item [] it) l) 0).
  unfold build_bind at 1.
  replace (process_element (Element (bpmn "startEvent") [("id", "S")] None []) 0)
    with (Ok (Some (ItemNode (Node_set_colour
                (Node_init "S" (bpmn "startEvent") None true None None PlainNode)
                (Some "#d1ffd1")))), 0) by reflexivity.
  apply add_elements_raise. exact Hp.
Qed.

(** ** Subprocess *)

(** C3, as the code has it. [Subprocess.__init__] takes the first child node
    with the [startEvent] tag and the first with the [endEvent] tag: it fails,
    with an index error, exactly when the children hold no such start node or
    no such end node, and with several of either it takes the first in
    insertion order. *)
Theorem Subprocess_init_first_events (id name : string) (children : Graph) (index : nat) :
  (Subprocess_init id name children index = Raise IndexError <->
   get_child_nodes_with_tag children (bpmn "startEvent") = [] \/
   get_child_nodes_with_tag children (bpmn "endEvent") = []) /\
  (forall s ss e es,
      get_child_nodes_with_tag children (bpmn "startEvent") = s :: ss ->
      get_child_nodes_with_tag children (bpmn "endEvent") = e :: es ->
      Subprocess_init id name children index =
      Ok (ItemSubprocess id name children s e index)).
Proof.
  unfold Subprocess_init, bpmn.
  destruct (get_child_nodes_with_tag children (Tag_repr (Tag_bpmn "startEvent")))
    as [|s ss];
  destruct (get_child_nodes_with_tag children (Tag_repr (Tag_bpmn "endEvent")))
    as [|e es]; simpl; split; try (intros; discriminate); try tauto.
  - split; [discriminate | intros [H|H]; discriminate H].
  - intros s' ss' e' es' H1 H2. injection H1 as <- _. injection H2 as <- _.
    reflexivity.
Qed.

(** C3 fails as stated: a subprocess with two start events is constructed,
    with the first of them as its start node. *)
Lemma Subprocess_two_start_events :
  exists children s1 s2 e1,
    Graph_init two_starts_subProcess 0 = (Ok children, 0) /\
    get_child_nodes_with_tag children (bpmn "startEvent") = [s1; s2] /\
    node_id s1 = "s1" /\ node_id s2 = "s2" /\
    process_element two_starts_subProcess 0 =
    (Ok (Some (ItemSubprocess "sp" "Sub" children s1 e1 0)), 1).
Proof.
  do 4 eexists. repeat split; reflexivity.
Qed.

(** ** Generic handlers *)

Lemma opt_truthy_spec (e : element) (a : string) :
  opt_truthy (attrib_get e a) = true <-> has_attrib e a.
Proof.
  unfold has_attrib. destruct (attrib_get e a) as [[|c v]|]; simpl; split.
  - discriminate.
  - intros (v & H & Hne). injection H as <-. congruence.
  - intros _. eexists. split; [reflexivity | discriminate].
  - reflexivity.
  - discriminate.
  - intros (v & H & _). discriminate.
Qed.

Lemma has_attrib_item (e : element) (a : string) :
  has_attrib e a -> exists v, attrib_item e a = Ok v /\ attrib_get e a = Some v.
Proof.
  intros (v & H & _). exists v. unfold attrib_item, dict_item.
  unfold attrib_get in H. rewrite H. auto.
Qed.



(** With a usable id, [Node.from_element] returns a plain node; its name is
    the placeholder when the [name] attribute is absent or empty. *)
Lemma Node_from_element_ok (e : element) :
  has_attrib e "id" ->
  exists id,
    attrib_get e "id" = Some id /\
    Node_from_element e =
    Ok (Node_init id (element_tag e) (attrib_get e "name") true None None PlainNode).
Proof.
  intros H. apply has_attrib_item in H. destruct H as (id & Hi & Hg).
  exists id. split; [exact Hg|]. unfold Node_from_element. rewrite Hi. reflexivity.
Qed.




(** ** Node names *)

(** [Node.__init__] puts the placeholder for a name that is [None] or empty. *)
Lemma Node_init_no_name (id tag : string) (show_id : bool) (colour : option string)
    (extras : option (list (string * option string))) (cls : node_class) :
  node_name (Node_init id tag None show_id colour extras cls) = NO_NAME /\
  node_name (Node_init id tag (Some "") show_id colour extras cls) = NO_NAME.
Proof. split; reflexivity. Qed.

(** [Node.from_element] and [Gateway.from_element] read the name with
    [attrib.get]: without a [name] attribute the node is built and carries
    the placeholder. *)
Lemma from_element_name_default (e : element) (id : string) :
  attrib_get e "id" = Some id ->
  attrib_get e "name" = None ->
  (exists n, Node_from_element e = Ok n /\ node_name n = NO_NAME) /\
  (exists n, Gateway_from_element e = Ok n /\ node_name n = NO_NAME).
Proof.
  intros Hid Hname. unfold Node_from_element, Gateway_from_element.
  unfold attrib_item, dict_item. unfold attrib_get in Hid. rewrite Hid, Hname.
  split; eexists; split; reflexivity.
Qed.

(** The other subclasses read it with [attrib['name']]: without a [name]
    attribute their [from_element] raises. *)
Lemma from_element_name_required (e : element) :
  attrib_get e "name" = None ->
  is_ok (BoundaryEvent_from_element e) = false /\
  is_ok (ServiceTask_from_element e) = false /\
  is_ok (UserTask_from_element e) = false /\
  is_ok (CallActivity_from_element e) = false /\
  is_ok (IntermediateCatchEvent_from_element e) = false.
Proof.
  intros Hname.
  assert (Hraise : attrib_item e "name" = Raise (KeyError "name")).
  { unfold attrib_item, dict_item. unfold attrib_get in Hname. rewrite Hname.
    reflexivity. }
  unfold BoundaryEvent_from_element, ServiceTask_from_element, UserTask_from_element,
    CallActivity_from_element, IntermediateCatchEvent_from_element.
  rewrite Hraise.
  repeat split.
  - destruct (attrib_item e "id"); reflexivity.
  - destruct (attrib_item e "id"); reflexivity.
  - destruct (map_result _ _); simpl; [|reflexivity].
    destruct (attrib_item e "id"); reflexivity.
  - destruct (attrib_item e "id"); reflexivity.
  - destruct (IntermediateCatchEvent_get_extras e); simpl; [|reflexivity].
    destruct (attrib_item e "id"); reflexivity.
Qed.

(** C8. The claim fails on the code for five of the node classes: an element
    with an id and no [name] attribute becomes a node named by the
    placeholder when it is a plain node, a start or end event or a gateway,
    and raises [KeyError] when it is a boundary event, service task, user
    task, call activity or intermediate catch event. *)
Theorem unnamed_elements :
  (exists n, process_element (unnamed "task" []) 0 = (Ok (Some (ItemNode n)), 0) /\
             node_name n = NO_NAME) /\
  (exists n, process_element (unnamed "startEvent" []) 0 = (Ok (Some (ItemNode n)), 0) /\
             node_name n = NO_NAME) /\
  (exists n, process_element (unnamed "exclusiveGateway" []) 0 = (Ok (Some (ItemNode n)), 0) /\
             node_name n = NO_NAME) /\
  process_element (unnamed "serviceTask" []) 0 = (Raise (KeyError "name"), 0) /\
  process_element (unnamed "boundaryEvent" [("attachedToRef", "T")]) 0 =
    (Raise (KeyError "name"), 0) /\
  process_element (unnamed "userTask" []) 0 = (Raise (KeyError "name"), 0) /\
  process_element (unnamed "callActivity" [("calledElement", "other")]) 0 =
    (Raise (KeyError "name"), 0) /\
  process_element (unnamed "intermediateCatchEvent" []) 0 = (Raise (KeyError "name"), 0).
Proof.
  split; [eexists; split; reflexivity|].
  split; [eexists; split; reflexivity|].
  split; [eexists; split; reflexivity|].
  repeat split.
Qed.

(** ** Condition text *)


Section ReplacePair.
Variable c : ascii.
Variable ins : string.

(** The pattern of two characters [c] and what replaces it. *)
Let old : string := String c (String c "").
Let new : string := String c (String c ins).




End ReplacePair.

Section ReplaceChar.
Variable q : ascii.
Variable new : string.

End ReplaceChar.


Section ReplaceCharCases.
Variable q : ascii.
Variable new : string.


End ReplaceCharCases.


Lemma tidy_passes_nil : tidy_passes "" = "".
Proof. reflexivity. Qed.








(** ** Rendering of edges *)

Lemma Graph_wf_get (g : Graph) (k : string) (it : item) :
  Graph_wf g -> dict_get g k = Some it -> item_id it = k.
Proof.
  intros [_ Hid] H. apply dict_get_in in H.
  rewrite Forall_forall in Hid. symmetry. apply (Hid (k, it) H).
Qed.

(** Each endpoint of the specification is what the lookup of [Edge.to_dot]
    computes. *)
Lemma resolve_endpoint_source (g : Graph) (nominal shown : string) :
  Graph_wf g ->
  rendered_endpoint g SourceSide nominal shown ->
  resolve_endpoint g item_end_node_id nominal = Ok shown.
Proof.
  intros Hwf H. unfold resolve_endpoint.
  destruct H as [n H | id name children sn en index H | H]; rewrite H; simpl.
  - apply (Graph_wf_get g nominal _ Hwf) in H. simpl in H. rewrite H. reflexivity.
  - reflexivity.
  - reflexivity.
Qed.

Lemma resolve_endpoint_target (g : Graph) (nominal shown : string) :
  Graph_wf g ->
  rendered_endpoint g TargetSide nominal shown ->
  resolve_endpoint g item_start_node_id nominal = Ok shown.
Proof.
  intros Hwf H. unfold resolve_endpoint.
  destruct H as [n H | id name children sn en index H | H]; rewrite H; simpl.
  - apply (Graph_wf_get g nominal _ Hwf) in H. simpl in H. rewrite H. reflexivity.
  - reflexivity.
  - reflexivity.
Qed.

(** With a mapping at hand, the source is the [end_node_id] of the item
    found under the source id and the target the [start_node_id] of the
    item found under the target id. *)
Lemma Edge_to_dot_lookup (e : Edge) (g : Graph) (params : params_t)
    (source_item target_item : item) (source target : string) :
  g <> [] ->
  dict_get g (edge_source_node e) = Some source_item ->
  dict_get g (edge_target_node e) = Some target_item ->
  item_end_node_id source_item = Ok source ->
  item_start_node_id target_item = Ok target ->
  Edge_to_dot e (Some g) params = Ok (source ++ " -> " ++ target ++ Edge_label e params).
Proof.
  intros Hne Hs Ht Hsi Hti. unfold Edge_to_dot, resolve_endpoint.
  destruct g as [|kv g]; [congruence|].
  rewrite Hs, Ht, Hsi, Hti. reflexivity.
Qed.

(** C5. An edge rendered with the top-level mapping of a graph shows, on
    each side, the endpoint that the specification gives for the nominal id:
    the id itself for a node of the mapping, the id of the end event
    (source) or start event (target) inside a subprocess of the mapping, and
    the nominal id when the mapping has no such key, as for an item nested in
    a subprocess. *)
Theorem Edge_to_dot_endpoints (e : Edge) (g : Graph) (params : params_t)
    (source target : string) :
  Graph_wf g ->
  g <> [] ->
  rendered_endpoint g SourceSide (edge_source_node e) source ->
  rendered_endpoint g TargetSide (edge_target_node e) target ->
  Edge_to_dot e (Some g) params = Ok (source ++ " -> " ++ target ++ Edge_label e params).
Proof.
  intros Hwf Hne Hs Ht. unfold Edge_to_dot.
  destruct g as [|kv g]; [congruence|].
  rewrite (resolve_endpoint_source _ _ _ Hwf Hs).
  rewrite (resolve_endpoint_target _ _ _ Hwf Ht).
  reflexivity.
Qed.

(** ** Labels of user tasks *)

Lemma map_result_ok {A B : Type} (f : A -> result B) (l : list A) :
  is_ok (map_result f l) = forallb (fun a => is_ok (f a)) l.
Proof.
  induction l as [|a l IH]; simpl; [reflexivity|].
  destruct (f a) as [b|x]; simpl; [|reflexivity].
  rewrite <- IH. destruct (map_result f l); reflexivity.
Qed.

Lemma bind_is_ok {A B : Type} (m : result A) (f : A -> B) :
  is_ok (x <- m ;; Ok (f x)) = is_ok m.
Proof. destruct m; reflexivity. Qed.

Lemma forallb_eq {A : Type} (p q : A -> bool) (l : list A) :
  (forall a, p a = q a) -> forallb p l = forallb q l.
Proof.
  intros H. induction l as [|a l IH]; simpl; [reflexivity|].
  rewrite H, IH. reflexivity.
Qed.

(** The label is computed when the task listeners are not shown, and
    otherwise when the class name of every listener can be computed. *)
Lemma UserTask_get_label_ok (n : Node) (task_listeners : list TaskListener)
    (params : params_t) :
  is_ok (UserTask_get_label n task_listeners params) =
  if negb (params_truthy params) || params_flag params "show_task_listeners"
  then forallb (fun l => is_ok (UserTask_get_class_name (listener_class_name l) params))
               task_listeners
  else true.
Proof.
  unfold UserTask_get_label. rewrite bind_is_ok.
  destruct (negb (params_truthy params) || params_flag params "show_task_listeners");
    [|reflexivity].
  destruct task_listeners as [|l ls]; [reflexivity|].
  rewrite bind_is_ok, map_result_ok.
  apply forallb_eq. intros a. apply bind_is_ok.
Qed.

(** It raises exactly when the task listeners are shown, the class names
    are shortened and some listener has no class name. *)
Lemma UserTask_get_label_fails (n : Node) (task_listeners : list TaskListener)
    (params : params_t) :
  is_ok (UserTask_get_label n task_listeners params) = false <->
  negb (params_truthy params) || params_flag params "show_task_listeners" = true /\
  negb (params_truthy params) || negb (params_flag params "show_package_names") = true /\
  Exists (fun l => listener_class_name l = None) task_listeners.
Proof.
  rewrite UserTask_get_label_ok. unfold UserTask_get_class_name.
  destruct (negb (params_truthy params) || params_flag params "show_task_listeners").
  2: { split; [discriminate | intros [H _]; discriminate]. }
  destruct (negb (params_truthy params) || negb (params_flag params "show_package_names")).
  - induction task_listeners as [|l ls IH]; simpl.
    + split; [discriminate | intros (_ & _ & H); inversion H].
    + destruct (listener_class_name l) eqn:Ec; simpl.
      * rewrite IH. split.
        -- intros (H1 & H2 & H3). auto.
        -- intros (H1 & H2 & H3). inversion H3; subst; [congruence | auto].
      * split; [|reflexivity]. intros _. auto.
  - split; [|intros (_ & H & _); discriminate].
    intros H. exfalso.
    assert (Hf : forallb (fun l : TaskListener => is_ok (Ok (listener_class_name l)))
                         task_listeners = true).
    { apply forallb_forall. reflexivity. }
    congruence.
Qed.

(** C10. The label of a user task is computed whenever every task listener
    carries a class name, and not otherwise: the element with a task listener
    that has an event and an expression and no class is built into a user
    task whose label raises, with no [params] and with [params] that show the
    task listeners. *)
Theorem UserTask_get_label_needs_class_names :
  (forall (n : Node) (task_listeners : list TaskListener) (params : params_t),
      Forall (fun l => listener_class_name l <> None) task_listeners ->
      exists label, UserTask_get_label n task_listeners params = Ok label) /\
  (exists n listener,
      process_element expression_listener_userTask 0 = (Ok (Some (ItemNode n)), 0) /\
      node_cls n = UserTask [listener] /\
      listener_event listener = "create" /\
      listener_class_name listener = None /\
      listener_expression listener <> None /\
      get_label n None = Raise AttributeError /\
      get_label n (Some [("show_flows", false); ("show_package_names", false);
                         ("show_task_listeners", true)]) = Raise AttributeError).
Proof.
  split.
  - intros n ls params Hall.
    destruct (UserTask_get_label n ls params) as [label|x] eqn:E; [eauto|].
    exfalso.
    assert (Hf : is_ok (UserTask_get_label n ls params) = false) by (rewrite E; reflexivity).
    apply UserTask_get_label_fails in Hf. destruct Hf as (_ & _ & Hex).
    apply Exists_exists in Hex. destruct Hex as (l & Hl & Hn).
    rewrite Forall_forall in Hall. exact (Hall l Hl Hn).
  - do 2 eexists. split; [reflexivity|].
    repeat split. discriminate.
Qed.

(** ** The sample documents *)

(** The invariant of a graph that is given in full, by evaluation. *)
Ltac prove_wf :=
  vm_compute; split;
  [ repeat (constructor; [simpl; intuition discriminate|]); constructor
  | repeat constructor ].

(** A subprocess of the mapping, looked up by evaluation. *)
Ltac endpoint_of_subprocess :=
  match goal with
  | |- rendered_endpoint ?g ?s ?x _ =>
      let it := eval vm_compute in (dict_get g x) in
      match it with
      | Some (ItemSubprocess ?i ?nm ?ch ?sn ?en ?ix) =>
          exact (endpoint_subprocess g s x i nm ch sn en ix eq_refl)
      end
  end.

Lemma remove_adjacent_spec_witness :
  remove_adjacent sample_graph ["B"; "H"] = filter (kept ["B"; "H"]) sample_graph /\
  Graph_wf (remove_adjacent sample_graph ["B"; "H"]) /\
  (forall kv, In kv (remove_adjacent sample_graph ["B"; "H"]) <->
              In kv sample_graph /\
              forall x, In x ["B"; "H"] -> ~ In x (item_adjacent (snd kv))) /\
  remove_adjacent sample_graph [] = sample_graph.
Proof.
  apply (remove_adjacent_spec sample_graph ["B"; "H"]). prove_wf.
Defined.

Lemma Subprocess_init_first_events_witness :
  exists s e,
    Subprocess_init "sp" "Sub" (graph_of two_starts_subProcess) 0 =
    Ok (ItemSubprocess "sp" "Sub" (graph_of two_starts_subProcess) s e 0).
Proof.
  do 2 eexists.
  eapply (proj2 (Subprocess_init_first_events "sp" "Sub" (graph_of two_starts_subProcess) 0));
    vm_compute; reflexivity.
Defined.

Lemma Edge_to_dot_endpoints_witness :
  Edge_to_dot sample_flow (Some sample_graph) None = Ok "B -> HS".
Proof.
  apply (Edge_to_dot_endpoints sample_flow sample_graph None "B" "HS").
  - prove_wf.
  - vm_compute. discriminate.
  - eapply endpoint_node. vm_compute. reflexivity.
  - endpoint_of_subprocess.
Defined.

Lemma UserTask_get_label_needs_class_names_witness :
  exists label,
    UserTask_get_label
      (Node_init "u1" (bpmn "userTask") (Some "Review") true (Some "#e8d1ff") None
                 (UserTask [mkTaskListener "create" (Some "com.acme.Notify") None]))
      [mkTaskListener "create" (Some "com.acme.Notify") None] None = Ok label.
Proof.
  apply (proj1 UserTask_get_label_needs_class_names).
  constructor; [simpl; discriminate | constructor].
Defined.

(** C4. The claim fails on the code when the exception subprocess has the
    empty string as its id: [get_edges] takes the empty id for no filter, so
    the downstream ids are the targets of all edges. In the graph of the
    sample, no edge leaves the subprocess and the removal set of the
    specification holds the empty id alone, yet the node [b] and the flow
    [f] are removed with the subprocess. *)
Theorem empty_subprocess_id_removes_all_targets :
  Graph_init empty_id_process 0 = (Ok empty_id_graph, 1) /\
  dict_keys empty_id_graph = ["a"; "b"; "f"; ""] /\
  (forall x, in_removal_set empty_id_graph "Handle Exception" x -> x = "") /\
  get_downstream_nodes empty_id_graph "" = ["b"] /\
  dict_keys (remove_error_handling empty_id_graph "Handle Exception") = ["a"].
Proof.
  split; [reflexivity|]. split; [reflexivity|]. split; [|split; reflexivity].
  intros x [(n & Hin & Ht & Hid) | [(sp & Hin & Hex & Hid) | (sp & e & Hin & Hex & He & Hs & Ht)]].
  - vm_compute in Hin.
    repeat (destruct Hin as [Hin|Hin]; [try discriminate|]); try contradiction;
      injection Hin as <-; discriminate Ht.
  - vm_compute in Hin.
    repeat (destruct Hin as [Hin|Hin]; [try (subst sp; discriminate Hex)|]);
      try contradiction.
    subst sp. symmetry. exact Hid.
  - vm_compute in Hin.
    repeat (destruct Hin as [Hin|Hin]; [try (subst sp; discriminate Hex)|]);
      try contradiction.
    subst sp. vm_compute in He.
    repeat (destruct He as [He|He]; [try discriminate|]); try contradiction.
    injection He as <-. discriminate Hs.
Qed.

Lemma remove_error_handling_one_hop_witness :
  In ("D", sample_item "D") (remove_error_handling sample_graph "Handle Exception") <->
  In ("D", sample_item "D") sample_graph /\
  forall x, In x (item_adjacent (snd ("D", sample_item "D"))) ->
            ~ in_removal_set sample_graph "Handle Exception" x.
Proof.
  apply (remove_error_handling_one_hop sample_graph "Handle Exception").
  - prove_wf.
  - intros sp Hin Hex. vm_compute in Hin.
    repeat (destruct Hin as [Hin|Hin]; [try (subst sp; discriminate Hex)|]);
      try contradiction.
    subst sp. discriminate.
Defined.

(** ** The class of a built node *)

(** Case analysis on the innermost scrutinee of the goal. *)
Ltac break_inner :=
  repeat match goal with
         | |- context [match ?x with _ => _ end] =>
             lazymatch x with
             | context [match _ with _ => _ end] => fail
             | _ => destruct x eqn:?
             end
         end.

Lemma get_handler_fn_boundaryEvent (e : element) :
  element_tag e = bpmn "boundaryEvent" ->
  get_handler_fn e = Ok (Some fn_handle_boundaryEvent).
Proof. intros H. unfold get_handler_fn, Tag_from_element. rewrite H. reflexivity. Qed.

(** A node that [__process_element] returns has the tag of its element, and
    it is a [BoundaryEvent] exactly when [handle_boundaryEvent] built it,
    which checks the tag. *)
Lemma process_element_node_class (e : element) (idx idx' : nat) (n : Node) :
  process_element e idx = (Ok (Some (ItemNode n)), idx') ->
  node_tag n = element_tag e /\
  (get_handler_fn e = Ok (Some fn_handle_boundaryEvent) <->
   exists attached, node_cls n = BoundaryEvent attached) /\
  (get_handler_fn e = Ok (Some fn_handle_boundaryEvent) ->
   element_tag e = bpmn "boundaryEvent").
Proof.
  rewrite process_element_eq.
  unfold process_element_with, build_bind, build_pure.
  destruct (get_handler_fn e) as [[fn|]|x] eqn:Hfn; [| |discriminate].
  - destruct fn; unfold call_handler, build_pure, handle_subProcess,
      Subprocess_from_element, build_bind, build_pure, Subprocess_init,
      handle_boundaryEvent, handle_serviceTask, handle_userTask, handle_callActivity,
      handle_intermediateCatchEvent, handle_node, handle_edge, handle_gateway,
      handle_coloured_node, handle_node,
      BoundaryEvent_from_element, ServiceTask_from_element, UserTask_from_element,
      CallActivity_from_element, IntermediateCatchEvent_from_element,
      Gateway_from_element, Node_from_element, bind;
      break_inner; intros H; try discriminate H; inversion H; subst; clear H;
      (split; [reflexivity|]);
      (split; [split; [intros Hb; try discriminate Hb; simpl; eauto
                      | intros [att Hatt]; try discriminate Hatt; reflexivity]
              | intros Hb; try discriminate Hb]).
    apply String.eqb_eq. assumption.
  - unfold OTHER_HANDLERS, try_handlers, handle_edge, handle_node, Node_from_element, bind.
    break_inner; intros H; try discriminate H; inversion H; subst; clear H.
    all: split; [reflexivity|].
    all: split; [split; [discriminate | intros [att Hatt]; discriminate Hatt]
                | discriminate].
Qed.

Lemma process_element_boundary_by_tag (e : element) (idx idx' : nat) (n : Node) :
  process_element e idx = (Ok (Some (ItemNode n)), idx') ->
  node_tag n = bpmn "boundaryEvent" <->
  exists attached, node_cls n = BoundaryEvent attached.
Proof.
  intros H. apply process_element_node_class in H.
  destruct H as (Htag & Hcls & Hfn). rewrite <- Hcls. split.
  - intros Hn. apply get_handler_fn_boundaryEvent. congruence.
  - intros Hb. rewrite Htag. apply Hfn, Hb.
Qed.

Lemma add_elements_boundary_by_tag (elements : list element) (g g' : Graph)
    (idx idx' : nat) :
  boundary_by_tag g ->
  add_elements process_element g elements idx = (Ok g', idx') ->
  boundary_by_tag g'.
Proof.
  revert g idx. induction elements as [|e rest IH]; simpl; intros g idx Hg H.
  - unfold build_pure in H. injection H as <- _. exact Hg.
  - unfold build_bind in H.
    destruct (process_element e idx) as [[it|x] idx1] eqn:E; [|discriminate].
    apply IH in H; [exact H|].
    destruct it as [i|]; [|exact Hg]. unfold add_item, boundary_by_tag.
    apply Forall_forall. intros kv Hkv. apply dict_set_in in Hkv.
    destruct Hkv as [->|Hkv].
    + simpl. intros n ->. apply (process_element_boundary_by_tag e idx idx1 n E).
    + unfold boundary_by_tag in Hg. rewrite Forall_forall in Hg. apply Hg, Hkv.
Qed.

(** In a graph built by [Graph.__init__] the boundary events by tag are the
    boundary events by class. *)
Lemma Graph_init_boundary_by_tag (root : element) (g : Graph) (idx idx' : nat) :
  Graph_init root idx = (Ok g, idx') -> boundary_by_tag g.
Proof. apply add_elements_boundary_by_tag. constructor. Qed.

(** ** A handler found by name and a tag of another namespace *)

Lemma length_append (x y : string) :
  String.length (x ++ y) = String.length x + String.length y.
Proof. induction x as [|a x IH]; simpl; [reflexivity | rewrite IH; reflexivity]. Qed.

Lemma append_inj_l (x y s : string) : x ++ s = y ++ s -> x = y.
Proof.
  revert y. induction x as [|a x IH]; intros [|b y] H; simpl in H.
  - reflexivity.
  - exfalso. apply (f_equal String.length) in H. simpl in H.
    rewrite length_append in H. lia.
  - exfalso. apply (f_equal String.length) in H. simpl in H.
    rewrite length_append in H. lia.
  - injection H as -> H. rewrite (IH y H). reflexivity.
Qed.

Lemma Tag_repr_namespace (ns ns' local : string) :
  ns <> ns' -> "{" ++ ns ++ "}" ++ local <> Tag_repr (mkTag ns' local).
Proof.
  intros Hne H. unfold Tag_repr in H. simpl in H.
  injection H as H. apply (append_inj_l ns ns' (String "}" local)) in H.
  exact (Hne H).
Qed.

(** The local names whose handler compares the whole tag string. *)
Lemma foreign_tag_handler (ns local : string) :
  In local ["subProcess"; "boundaryEvent"; "serviceTask"; "userTask"; "callActivity";
            "intermediateCatchEvent"] ->
  str_contains LF ns = false ->
  exists fn,
    forall attrib text children,
      get_handler_fn (Element ("{" ++ ns ++ "}" ++ local) attrib text children) = Ok (Some fn).
Proof.
  intros Hin Hns.
  assert (Hparse : str_contains LF local = false ->
                   str_contains "}"%char local = false ->
                   Tag_from_string ("{" ++ ns ++ "}" ++ local) = Ok (mkTag ns local)).
  { intros H1 H2. apply (Tag_from_string_repr (mkTag ns local)); assumption. }
  unfold get_handler_fn, Tag_from_element. cbn [element_tag].
  simpl in Hin.
  repeat (destruct Hin as [<-|Hin];
          [rewrite Hparse by reflexivity; eexists; intros; reflexivity|]).
  contradiction.
Qed.

(** An element with one of these local names in a namespace that is not the
    BPMN one ends the build of any graph it is added to: its handler raises
    [UnsuitableHandlerException] and nothing catches it. *)
Lemma foreign_namespace_aborts (ns local : string) (attrib : list (string * string))
    (text : option string) (children rest : list element) (g : Graph) (idx : nat) :
  In local ["subProcess"; "boundaryEvent"; "serviceTask"; "userTask"; "callActivity";
            "intermediateCatchEvent"] ->
  str_contains LF ns = false ->
  ns <> BPMN_NAMESPACE ->
  add_elements process_element g
    (Element ("{" ++ ns ++ "}" ++ local) attrib text children :: rest) idx =
  (Raise UnsuitableHandlerException, idx).
Proof.
  intros Hin Hns Hne. apply add_elements_raise.
  assert (Htag : String.eqb ("{" ++ ns ++ "}" ++ local) (bpmn local) = false).
  { apply String.eqb_neq. apply Tag_repr_namespace, Hne. }
  assert (Hparse : str_contains LF local = false ->
                   str_contains "}"%char local = false ->
                   Tag_from_string ("{" ++ ns ++ "}" ++ local) = Ok (mkTag ns local)).
  { intros H1 H2. apply (Tag_from_string_repr (mkTag ns local)); assumption. }
  rewrite process_element_eq.
  unfold process_element_with, get_handler_fn, Tag_from_element, build_bind, build_pure.
  cbn [element_tag]. simpl in Hin.
  repeat (destruct Hin as [<-|Hin];
          [rewrite Hparse by reflexivity; simpl bind; cbv iota beta;
           unfold call_handler, handle_subProcess, element_is_subprocess,
             handle_boundaryEvent, handle_serviceTask, handle_userTask,
             handle_callActivity, handle_intermediateCatchEvent, build_pure;
           cbn [element_tag]; fold (bpmn "subProcess"); fold (bpmn "boundaryEvent");
           fold (bpmn "serviceTask"); fold (bpmn "userTask"); fold (bpmn "callActivity");
           fold (bpmn "intermediateCatchEvent");
           rewrite Htag; reflexivity|]).
  contradiction.
Qed.

Lemma Graph_init_wf_witness : Graph_wf sample_graph.
Proof. apply (Graph_init_wf sample_process sample_graph 0 1). reflexivity. Defined.

Lemma from_element_name_default_witness :
  (exists n, Node_from_element (unnamed "task" []) = Ok n /\ node_name n = NO_NAME) /\
  (exists n, Gateway_from_element (unnamed "exclusiveGateway" []) = Ok n /\
             node_name n = NO_NAME).
Proof.
  split.
  - apply (from_element_name_default (unnamed "task" []) "n1"); reflexivity.
  - apply (from_element_name_default (unnamed "exclusiveGateway" []) "n1"); reflexivity.
Defined.

(** * Further properties of the code *)

(** ** Tag strings that parse *)

Lemma append_assoc (x y z : string) : (x ++ y) ++ z = x ++ (y ++ z).
Proof. induction x as [|a x IH]; simpl; [reflexivity | rewrite IH; reflexivity]. Qed.

Lemma endswith_char_drop_last (c : ascii) (s : string) :
  endswith_char c s = true -> s = drop_last s ++ String c "".
Proof.
  induction s as [|a s IH]; simpl; [discriminate|].
  destruct s as [|b s].
  - intros H. apply Ascii.eqb_eq in H. subst a. reflexivity.
  - intros H. specialize (IH H).
    change (String a (String b s) = String a (drop_last (String b s) ++ String c "")).
    rewrite <- IH. reflexivity.
Qed.

Lemma endswith_char_app (c : ascii) (s : string) :
  endswith_char c (s ++ String c "") = true /\ drop_last (s ++ String c "") = s.
Proof.
  induction s as [|a s [IH1 IH2]]; simpl.
  - rewrite Ascii.eqb_refl. split; reflexivity.
  - destruct (s ++ String c "") as [|b r] eqn:E.
    + destruct s; discriminate E.
    + split; [exact IH1 | rewrite IH2; reflexivity].
Qed.

(** [Tag.from_string] succeeds exactly on the string form of a tag whose
    namespace and name hold no line feed and whose name holds no closing
    brace, and on that string followed by one line feed; every other string
    raises. *)
Theorem Tag_from_string_iff (s : string) (t : Tag) :
  Tag_from_string s = Ok t <->
  (s = Tag_repr t \/ s = Tag_repr t ++ String LF "") /\
  str_contains LF (Tag_namespace t) = false /\
  str_contains LF (Tag_tag t) = false /\
  str_contains "}"%char (Tag_tag t) = false.
Proof.
  split.
  - unfold Tag_from_string.
    destruct (TAG_REGEX_match s) as [[ns local]|] eqn:E; [|discriminate].
    intros H. injection H as <-.
    split; [|apply (TAG_REGEX_match_groups s), E].
    unfold TAG_REGEX_match in E. destruct s as [|a rest]; [discriminate|].
    destruct (Ascii.eqb a "{"%char) eqn:Ea.
    + apply Ascii.eqb_eq in Ea. subst a. unfold Tag_repr. cbn [Tag_namespace Tag_tag].
      destruct (endswith_char LF rest) eqn:Hend.
      * destruct (str_contains LF (drop_last rest)); [discriminate|].
        apply rsplit_some in E. destruct E as [E _].
        right. rewrite (endswith_char_drop_last LF rest Hend), E.
        simpl. rewrite !append_assoc. reflexivity.
      * destruct (str_contains LF rest); [discriminate|].
        apply rsplit_some in E. destruct E as [E _].
        left. rewrite E. reflexivity.
    + exfalso. destruct a as [[] [] [] [] [] [] [] []]; try discriminate E.
      discriminate Ea.
  - intros ([-> | ->] & Hns & Hl & Hb).
    + apply Tag_from_string_repr; assumption.
    + destruct t as [ns local]. simpl in Hns, Hl, Hb.
      unfold Tag_from_string, Tag_repr, TAG_REGEX_match. cbn [Tag_namespace Tag_tag].
      change (("{" ++ ns ++ "}" ++ local) ++ String LF "")
        with (String "{" ((ns ++ String "}" local) ++ String LF "")).
      destruct (endswith_char_app LF (ns ++ String "}" local)) as [-> ->].
      rewrite str_contains_app. simpl. rewrite Hns, Hl. simpl.
      rewrite rsplit_app by exact Hb. reflexivity.
Qed.

(** ** The graph dictionary: insertion and lookup *)

Lemma dict_get_set_same {V : Type} (d : list (string * V)) (k : string) (v : V) :
  dict_get (dict_set d k v) k = Some v.
Proof.
  induction d as [|[k' v'] d IH]; simpl.
  - rewrite String.eqb_refl. reflexivity.
  - destruct (String.eqb k' k) eqn:E; simpl; rewrite E; [reflexivity | exact IH].
Qed.

Lemma dict_get_set_other {V : Type} (d : list (string * V)) (k k0 : string) (v : V) :
  k0 <> k -> dict_get (dict_set d k v) k0 = dict_get d k0.
Proof.
  intros Hne. induction d as [|[k' v'] d IH]; simpl.
  - apply String.eqb_neq in Hne. rewrite String.eqb_sym, Hne. reflexivity.
  - destruct (String.eqb k' k) eqn:E; simpl.
    + apply String.eqb_eq in E. subst k'.
      apply String.eqb_neq in Hne. rewrite String.eqb_sym, Hne. reflexivity.
    + rewrite IH. reflexivity.
Qed.

Lemma dict_set_length {V : Type} (d : list (string * V)) (k : string) (v : V) :
  List.length (dict_set d k v) =
  if existsb (String.eqb k) (dict_keys d) then List.length d else S (List.length d).
Proof.
  induction d as [|[k' v'] d IH]; simpl; [reflexivity|].
  rewrite (String.eqb_sym k k').
  destruct (String.eqb k' k); simpl; [reflexivity|].
  rewrite IH. destruct (existsb (String.eqb k) (dict_keys d)); reflexivity.
Qed.

(** An item that [__add_item] has put in is what [get_item] returns for its
    id, the other ids keep their items, and an id that was there keeps its
    place in the order while the length stays: the last write wins. *)
Theorem add_item_get_item (g : Graph) (it : item) :
  get_item (add_item g (Some it)) (item_id it) = Some it /\
  (forall k, k <> item_id it -> get_item (add_item g (Some it)) k = get_item g k) /\
  (In (item_id it) (ids g) ->
   ids (add_item g (Some it)) = ids g /\
   Graph_len (add_item g (Some it)) = Graph_len g) /\
  (~ In (item_id it) (ids g) ->
   add_item g (Some it) = (g ++ [(item_id it, it)])%list).
Proof.
  unfold get_item, add_item, ids, Graph_len.
  split; [apply dict_get_set_same|].
  split; [intros k Hk; apply dict_get_set_other, Hk|].
  split.
  - intros Hin. apply existsb_eqb_in in Hin.
    rewrite dict_set_keys, dict_set_length, Hin. split; reflexivity.
  - apply dict_set_fresh.
Qed.

(** ** Filtering: composition and what is left *)

Lemma intersects_app (a b adjacent : list string) :
  intersects (a ++ b) adjacent = intersects a adjacent || intersects b adjacent.
Proof. unfold intersects. apply existsb_app. Qed.

Lemma filter_filter {A : Type} (p q : A -> bool) (l : list A) :
  filter q (filter p l) = filter (fun a => p a && q a) l.
Proof.
  induction l as [|a l IH]; simpl; [reflexivity|].
  destruct (p a); simpl; [|exact IH].
  destruct (q a); rewrite IH; reflexivity.
Qed.

Lemma filter_eq {A : Type} (p q : A -> bool) (l : list A) :
  (forall a, In a l -> p a = q a) -> filter p l = filter q l.
Proof.
  induction l as [|a l IH]; simpl; intros H; [reflexivity|].
  rewrite (H a) by (left; reflexivity). rewrite IH by auto. reflexivity.
Qed.

Lemma filter_all {A : Type} (p : A -> bool) (l : list A) :
  (forall a, In a l -> p a = true) -> filter p l = l.
Proof.
  induction l as [|a l IH]; simpl; intros H; [reflexivity|].
  rewrite (H a) by (left; reflexivity). rewrite IH by auto. reflexivity.
Qed.

Lemma filter_none {A : Type} (p : A -> bool) (l : list A) :
  (forall a, In a l -> p a = false) -> filter p l = [].
Proof.
  induction l as [|a l IH]; simpl; intros H; [reflexivity|].
  rewrite (H a) by (left; reflexivity). apply IH. auto.
Qed.

(** Two removals in a row are one removal of both id lists, so the order of
    the removals does not matter, and a removal never grows the graph. *)
Theorem remove_adjacent_compose (g : Graph) (a b : list string) :
  Graph_wf g ->
  remove_adjacent (remove_adjacent g a) b = remove_adjacent g (a ++ b) /\
  remove_adjacent (remove_adjacent g a) b = remove_adjacent (remove_adjacent g b) a /\
  Graph_len (remove_adjacent g a) <= Graph_len g.
Proof.
  intros Hwf.
  assert (Hab : forall x y, remove_adjacent (remove_adjacent g x) y =
                            filter (fun kv => kept x kv && kept y kv) g).
  { intros x y. rewrite (remove_adjacent_filter g x Hwf).
    rewrite remove_adjacent_filter by (apply filter_wf, Hwf).
    apply filter_filter. }
  split; [|split].
  - rewrite Hab, (remove_adjacent_filter g (a ++ b) Hwf).
    apply filter_eq. intros kv _. unfold kept.
    rewrite intersects_app, negb_orb. reflexivity.
  - rewrite !Hab. apply filter_eq. intros kv _. apply andb_comm.
  - rewrite (remove_adjacent_filter g a Hwf). unfold Graph_len.
    apply filter_length_le.
Qed.

Lemma remove_adjacent_compose_witness :
  remove_adjacent (remove_adjacent sample_graph ["B"]) ["H"] =
    remove_adjacent sample_graph (["B"] ++ ["H"]) /\
  remove_adjacent (remove_adjacent sample_graph ["B"]) ["H"] =
    remove_adjacent (remove_adjacent sample_graph ["H"]) ["B"] /\
  Graph_len (remove_adjacent sample_graph ["B"]) <= Graph_len sample_graph.
Proof.
  apply (remove_adjacent_compose sample_graph ["B"] ["H"]). prove_wf.
Defined.

(** The ids that [remove_error_handling] collects, as the function builds
    them. *)
Lemma remove_error_handling_unfold (g : Graph) (name : string) :
  remove_error_handling g name =
  remove_adjacent g
    (map node_id (get_child_nodes_with_tag g (Tag_repr (Tag_bpmn "boundaryEvent"))) ++
     map item_id (filter (is_exception_subprocess name) (dict_values g)) ++
     concat (map (get_downstream_nodes g)
                 (map item_id (filter (is_exception_subprocess name) (dict_values g)))))%list.
Proof. reflexivity. Qed.

(** After error-handling removal the graph holds no node with the
    [boundaryEvent] tag and no subprocess with the configured name, whatever
    their ids are; what is left is a part of the input in its order; and a
    second removal changes nothing. *)
Theorem remove_error_handling_idempotent (g : Graph) (name : string) :
  Graph_wf g ->
  get_child_nodes_with_tag (remove_error_handling g name)
                           (Tag_repr (Tag_bpmn "boundaryEvent")) = [] /\
  filter (is_exception_subprocess name) (dict_values (remove_error_handling g name)) = [] /\
  (exists p, remove_error_handling g name = filter p g) /\
  remove_error_handling (remove_error_handling g name) name = remove_error_handling g name.
Proof.
  intros Hwf.
  set (r := remove_error_handling g name).
  assert (Hr : Graph_wf r).
  { unfold r. rewrite remove_error_handling_unfold.
    rewrite remove_adjacent_filter by exact Hwf. apply filter_wf, Hwf. }
  assert (Hin : forall kv, In kv r ->
                  In kv g /\
                  forall x, In x (item_adjacent (snd kv)) -> ~ In x (removal_ids g name)).
  { intros kv Hkv. unfold r in Hkv. rewrite remove_error_handling_unfold in Hkv.
    apply (remove_adjacent_in g _ kv Hwf) in Hkv. destruct Hkv as [Hg Hx].
    split; [exact Hg|]. intros x Ha Hx'. exact (Hx x Hx' Ha). }
  assert (Hb : get_child_nodes_with_tag r (Tag_repr (Tag_bpmn "boundaryEvent")) = []).
  { unfold get_child_nodes_with_tag. apply filter_none. intros n Hn.
    apply get_child_nodes_in in Hn. unfold dict_values in Hn.
    apply in_map_iff in Hn. destruct Hn as ([k it] & Hit & Hkv). simpl in Hit. subst it.
    destruct (Hin _ Hkv) as [Hg Hx].
    destruct (String.eqb (node_tag n) (Tag_repr (Tag_bpmn "boundaryEvent"))) eqn:E;
      [|reflexivity].
    exfalso. apply (Hx (node_id n)); [left; reflexivity|].
    unfold removal_ids. apply in_or_app. left.
    apply in_map. unfold get_child_nodes_with_tag. apply filter_In.
    split; [|exact E]. apply get_child_nodes_in. unfold dict_values.
    apply in_map_iff. exists (k, ItemNode n). split; [reflexivity | exact Hg]. }
  assert (Hs : filter (is_exception_subprocess name) (dict_values r) = []).
  { apply filter_none. intros it Hit. unfold dict_values in Hit.
    apply in_map_iff in Hit. destruct Hit as ([k it'] & E & Hkv). simpl in E. subst it'.
    destruct (Hin _ Hkv) as [Hg Hx].
    destruct (is_exception_subprocess name it) eqn:Ex; [|reflexivity].
    exfalso. apply (Hx (item_id it)).
    - destruct it; try discriminate Ex. simpl. left. reflexivity.
    - unfold removal_ids. apply in_or_app. right. apply in_or_app. left.
      apply in_map. apply filter_In. split; [|exact Ex].
      unfold dict_values. apply in_map_iff. exists (k, it). split; [reflexivity | exact Hg]. }
  split; [exact Hb|]. split; [exact Hs|]. split.
  - eexists. unfold r. rewrite remove_error_handling_unfold.
    apply remove_adjacent_filter, Hwf.
  - rewrite (remove_error_handling_unfold r name), Hb, Hs. simpl.
    rewrite remove_adjacent_filter by exact Hr.
    apply filter_all. intros kv _. reflexivity.
Qed.

Lemma remove_error_handling_idempotent_witness :
  get_child_nodes_with_tag (remove_error_handling sample_graph "Handle Exception")
                           (Tag_repr (Tag_bpmn "boundaryEvent")) = [] /\
  filter (is_exception_subprocess "Handle Exception")
         (dict_values (remove_error_handling sample_graph "Handle Exception")) = [] /\
  (exists p, remove_error_handling sample_graph "Handle Exception" = filter p sample_graph) /\
  remove_error_handling (remove_error_handling sample_graph "Handle Exception")
                        "Handle Exception" =
  remove_error_handling sample_graph "Handle Exception".
Proof.
  apply (remove_error_handling_idempotent sample_graph "Handle Exception"). prove_wf.
Defined.

(** ** Edge queries *)

(** [get_edges] returns the edges of the graph, in their order, that have
    the given source when it is a non-empty string and the given target when
    it is a non-empty string; [None] and the empty string both put no
    condition on that side. *)
Theorem get_edges_iff (g : Graph) (source_id target_id : option string) (e : Edge) :
  In e (get_edges g source_id target_id) <->
  In (ItemEdge e) (dict_values g) /\
  (opt_truthy source_id = true -> Some (edge_source_node e) = source_id) /\
  (opt_truthy target_id = true -> Some (edge_target_node e) = target_id).
Proof.
  assert (Hall : forall e', In e' (flat_map (fun it => match it with
                                                       | ItemEdge e0 => [e0]
                                                       | _ => []
                                                       end) (dict_values g)) <->
                            In (ItemEdge e') (dict_values g)).
  { intros e'. apply (get_edges_in g e'). }
  unfold get_edges.
  set (all := flat_map _ (dict_values g)) in *.
  assert (Hsrc : forall e',
             In e' (match source_id with
                    | Some s => if str_truthy s
                                then filter (fun e0 => String.eqb (edge_source_node e0) s) all
                                else all
                    | None => all
                    end) <->
             In e' all /\ (opt_truthy source_id = true -> Some (edge_source_node e') = source_id)).
  { intros e'. destruct source_id as [s|]; simpl.
    - destruct (str_truthy s).
      + rewrite filter_In, String.eqb_eq. split.
        * intros [H1 H2]. split; [exact H1 | intros _; congruence].
        * intros [H1 H2]. split; [exact H1|]. specialize (H2 eq_refl). congruence.
      + split; [intros H; split; [exact H | discriminate] | tauto].
    - split; [intros H; split; [exact H | discriminate] | tauto]. }
  set (src := match source_id with Some _ => _ | None => _ end) in *.
  destruct target_id as [t|]; simpl.
  - destruct (str_truthy t).
    + rewrite filter_In, String.eqb_eq, Hsrc, Hall. split.
      * intros [[H1 H2] H3]. repeat split; try assumption. intros _. congruence.
      * intros (H1 & H2 & H3). repeat split; try assumption.
        specialize (H3 eq_refl). congruence.
    + rewrite Hsrc, Hall. split; [intros [H1 H2]; repeat split; auto; discriminate | tauto].
  - rewrite Hsrc, Hall. split; [intros [H1 H2]; repeat split; auto; discriminate | tauto].
Qed.

(** ** Rendering of edges: failure and labels *)

(** Rendering an edge raises exactly when the mapping it is given holds an
    [Edge] under the source id or under the target id of the edge (an edge
    has no [end_node_id] and no [start_node_id]); the exception is an
    attribute error. Without a mapping, or with an empty one, it never
    raises. *)
Theorem Edge_to_dot_raises (e : Edge) (graph : option Graph) (params : params_t) :
  (is_ok (Edge_to_dot e graph params) = false <->
   exists g, graph = Some g /\
             ((exists e', dict_get g (edge_source_node e) = Some (ItemEdge e')) \/
              (exists e', dict_get g (edge_target_node e) = Some (ItemEdge e')))) /\
  (forall x, Edge_to_dot e graph params = Raise x -> x = AttributeError).
Proof.
  unfold Edge_to_dot.
  destruct graph as [[|kv g]|].
  - simpl. split; [|discriminate].
    split; [discriminate|]. intros (g & Hg & [[e' H]|[e' H]]);
      injection Hg as <-; discriminate H.
  - set (g' := kv :: g). unfold resolve_endpoint.
    destruct (dict_get g' (edge_source_node e)) as [[n|e1|i nm ch sn en ix]|] eqn:Es;
      destruct (dict_get g' (edge_target_node e)) as [[n'|e2|i' nm' ch' sn' en' ix']|] eqn:Et;
      simpl; split;
      try (split; [discriminate
                  | intros (g0 & Hg & [[e' H]|[e' H]]); injection Hg as <-; congruence]);
      try discriminate;
      try (intros x H; injection H as <-; reflexivity);
      try (split; [intros _; exists g'; split; [reflexivity|]; eauto | reflexivity]).
  - simpl. split; [|discriminate].
    split; [discriminate | intros (g & Hg & _); discriminate Hg].
Qed.

Lemma join_cons_nonempty (sep a : string) (l : list string) :
  a <> "" -> join sep (a :: l) <> "".
Proof.
  intros Ha. destruct a as [|c a]; [congruence|].
  destruct l; simpl; discriminate.
Qed.

Lemma opt_truthy_format (o : option string) :
  opt_truthy o = true -> format_opt o <> "".
Proof. destruct o as [[|c s]|]; simpl; discriminate. Qed.

Lemma str_truthy_false (s : string) : str_truthy s = false <-> s = "".
Proof. destruct s; simpl; split; congruence. Qed.

(** An edge gets no label exactly when it has no name, no condition and no
    id to show: the name and the condition count when they are non-empty
    strings, the id when [show_flows] is set and the id is not empty.
    Otherwise the label is a non-empty text between double quotes. *)
Theorem Edge_label_empty (e : Edge) (params : params_t) :
  (Edge_label e params = "" <->
   opt_truthy (edge_name e) = false /\
   opt_truthy (edge_condition e) = false /\
   (params_truthy params && params_flag params "show_flows" = false \/ edge_id e = "")) /\
  (Edge_label e params <> "" ->
   exists text, text <> "" /\
                Edge_label e params = " [label=" ++ String DQUOTE text ++ String DQUOTE "]").
Proof.
  unfold Edge_label.
  assert (Hflows : (if params_truthy params then params_flag params "show_flows" else false)
                   = params_truthy params && params_flag params "show_flows").
  { destruct (params_truthy params); reflexivity. }
  rewrite Hflows. clear Hflows.
  set (flows := params_truthy params && params_flag params "show_flows").
  assert (Hshape : forall a l,
             a <> "" ->
             (if opt_truthy (match (a :: l) with
                             | [] => None
                             | _ :: _ => Some (join DOT_BREAK (a :: l))
                             end)
              then " [label=" ++ String DQUOTE
                     (format_opt (match (a :: l) with
                                  | [] => None
                                  | _ :: _ => Some (join DOT_BREAK (a :: l))
                                  end)) ++ String DQUOTE "]"
              else "") =
             " [label=" ++ String DQUOTE (join DOT_BREAK (a :: l)) ++ String DQUOTE "]").
  { intros a l Ha. pose proof (join_cons_nonempty DOT_BREAK a l Ha) as Hj.
    cbn [opt_truthy format_opt].
    destruct (join DOT_BREAK (a :: l)) eqn:E; [congruence | reflexivity]. }
  destruct (opt_truthy (edge_name e)) eqn:En.
  - cbn [app]. rewrite Hshape by (apply opt_truthy_format, En).
    split.
    + split; [discriminate | intros [H _]; discriminate].
    + intros _. eexists. split; [|reflexivity].
      apply join_cons_nonempty, opt_truthy_format, En.
  - destruct (opt_truthy (edge_condition e)) eqn:Ec.
    + cbn [app]. rewrite Hshape by (apply opt_truthy_format, Ec).
      split.
      * split; [discriminate | intros (_ & H & _); discriminate].
      * intros _. eexists. split; [|reflexivity].
        apply join_cons_nonempty, opt_truthy_format, Ec.
    + destruct flows eqn:Ef; cbn [app].
      * destruct (edge_id e) as [|c s] eqn:Ei.
        -- simpl. split; [|congruence].
           split; [intros _; auto | reflexivity].
        -- rewrite Hshape by discriminate. split.
           ++ split; [discriminate | intros (_ & _ & [H|H]); discriminate].
           ++ intros _. eexists. split; [|reflexivity]. simpl. discriminate.
      * simpl. split; [|congruence].
        split; [intros _; auto | reflexivity].
Qed.

(** ** Class names in labels *)

Lemma append_nil_r (s : string) : s ++ "" = s.
Proof. induction s as [|a s IH]; simpl; [reflexivity | rewrite IH; reflexivity]. Qed.

(** The last segment of a dotted name holds no dot, and the name is the
    segment itself or ends with a dot followed by the segment. *)
Lemma last_segment_spec (s : string) :
  str_contains "."%char (last_segment s) = false /\
  (last_segment s = s \/ exists p, s = p ++ String "."%char (last_segment s)).
Proof.
  unfold last_segment. destruct (rsplit "."%char s) as [[p y]|] eqn:E.
  - apply rsplit_some in E. destruct E as [E Hy].
    split; [exact Hy | right; exists p; exact E].
  - apply rsplit_none in E. split; [exact E | left; reflexivity].
Qed.

(** The label of a service task built from an element is its name and id,
    followed by a class line when the class attribute is a non-empty string:
    the class name as it is with [show_package_names] set, and else its last
    dot segment, which holds no dot and ends the class name. *)
Theorem ServiceTask_label (e : element) (n : Node) (params : params_t) :
  ServiceTask_from_element e = Ok n ->
  let class := attrib_get e ("{" ++ ACTIVITI_NAMESPACE ++ "}class") in
  let shown :=
    if params_truthy params && params_flag params "show_package_names"
    then format_opt class else last_segment (format_opt class) in
  get_label n params =
  Ok (node_name n ++ DOT_BREAK ++ "id: " ++ node_id n ++
      (if opt_truthy class then DOT_BREAK ++ "class: " ++ shown else "")) /\
  str_contains "."%char (last_segment (format_opt class)) = false /\
  (last_segment (format_opt class) = format_opt class \/
   exists p, format_opt class = p ++ String "."%char (last_segment (format_opt class))).
Proof.
  intros H. cbv zeta. split; [|apply last_segment_spec].
  unfold ServiceTask_from_element, bind in H.
  remember (attrib_get e ("{" ++ ACTIVITI_NAMESPACE ++ "}class")) as class eqn:Hclass.
  clear Hclass.
  destruct (attrib_item e "id") as [id|]; [|discriminate].
  destruct (attrib_item e "name") as [name|]; [|discriminate].
  injection H as <-.
  unfold get_label. cbn [node_cls Node_init].
  unfold ServiceTask_get_label, Node_get_label.
  cbn [node_extras node_show_id node_name node_id Node_init dict_get].
  change (String.eqb "class" "class") with true. cbv iota.
  rewrite append_nil_r.
  destruct class as [[|c s]|]; cbn [opt_truthy str_truthy format_opt].
  - rewrite append_nil_r. reflexivity.
  - destruct (params_truthy params && params_flag params "show_package_names") eqn:Ep.
    + apply andb_true_iff in Ep. destruct Ep as [-> ->]. cbn [negb orb].
      rewrite !append_assoc. reflexivity.
    + assert (Hn : negb (params_truthy params)
                   || negb (params_flag params "show_package_names") = true).
      { rewrite <- negb_andb, Ep. reflexivity. }
      rewrite Hn. rewrite !append_assoc. reflexivity.
  - rewrite append_nil_r. reflexivity.
Qed.

Lemma ServiceTask_label_witness :
  exists n,
    ServiceTask_from_element
      (xml "serviceTask" [("id", "T"); ("name", "Work");
                          ("{http://activiti.org/bpmn}class", "com.acme.Foo")] []) = Ok n /\
    get_label n None = Ok ("Work" ++ DOT_BREAK ++ "id: T" ++ DOT_BREAK ++ "class: Foo").
Proof.
  eexists. split; [reflexivity|].
  exact (proj1 (ServiceTask_label
                  (xml "serviceTask" [("id", "T"); ("name", "Work");
                                      ("{http://activiti.org/bpmn}class", "com.acme.Foo")] [])
                  _ None eq_refl)).
Defined.

(** ** What a built graph holds *)

Lemma attrib_item_ok (e : element) (k v : string) :
  attrib_item e k = Ok v -> attrib_get e k = Some v.
Proof.
  unfold attrib_item, dict_item, attrib_get.
  destruct (dict_get (element_attrib e) k); [congruence | discriminate].
Qed.

(** Every item that [__process_element] returns carries the [id] attribute
    of its element as its id. *)
Lemma process_element_item_id (e : element) (idx idx' : nat) (it : item) :
  process_element e idx = (Ok (Some it), idx') ->
  attrib_get e "id" = Some (item_id it).
Proof.
  rewrite process_element_eq.
  unfold process_element_with, build_bind, build_pure.
  destruct (get_handler_fn e) as [[fn|]|x] eqn:Hfn; [| |discriminate].
  - destruct fn; unfold call_handler, build_pure, handle_subProcess,
      Subprocess_from_element, build_bind, build_pure, Subprocess_init,
      handle_boundaryEvent, handle_serviceTask, handle_userTask, handle_callActivity,
      handle_intermediateCatchEvent, handle_node, handle_edge, handle_gateway,
      handle_coloured_node, handle_node,
      BoundaryEvent_from_element, ServiceTask_from_element, UserTask_from_element,
      CallActivity_from_element, IntermediateCatchEvent_from_element,
      Gateway_from_element, Node_from_element, Edge_from_element, bind;
      break_inner; intros H; try discriminate H; inversion H; subst; clear H;
      simpl; apply attrib_item_ok; assumption.
  - unfold OTHER_HANDLERS, try_handlers, handle_edge, handle_node, Node_from_element,
      Edge_from_element, bind.
    break_inner; intros H; try discriminate H; inversion H; subst; clear H;
      simpl; apply attrib_item_ok; assumption.
Qed.

Lemma add_elements_entries (elements : list element) (g g' : Graph) (idx idx' : nat) :
  add_elements process_element g elements idx = (Ok g', idx') ->
  (forall kv, In kv g' ->
              In kv g \/
              exists c, In c elements /\ attrib_get c "id" = Some (fst kv) /\
                        fst kv = item_id (snd kv)) /\
  List.length g' <= List.length g + List.length elements.
Proof.
  revert g idx. induction elements as [|e rest IH]; simpl; intros g idx H.
  - unfold build_pure in H. injection H as <- _. split; [auto | lia].
  - unfold build_bind in H.
    destruct (process_element e idx) as [[it|x] idx1] eqn:E; [|discriminate].
    apply IH in H. destruct H as [Hin Hlen]. split.
    + intros kv Hkv. destruct (Hin kv Hkv) as [Hg | (c & Hc & Hid)].
      * destruct it as [i|]; simpl in Hg; [|auto].
        apply dict_set_in in Hg. destruct Hg as [-> | Hg]; [|auto].
        right. exists e. split; [left; reflexivity|]. simpl.
        split; [|reflexivity]. eapply process_element_item_id, E.
      * right. exists c. split; [right; exact Hc | exact Hid].
    + destruct it as [i|]; simpl in Hlen; [|lia].
      rewrite dict_set_length in Hlen.
      destruct (existsb (String.eqb (item_id i)) (dict_keys g)); lia.
Qed.

(** A graph built from the children of an element holds at most one item
    per child, and every item is filed under the [id] attribute of a child,
    which is its own id. *)
Theorem Graph_init_entries (root : element) (g : Graph) (idx idx' : nat) :
  Graph_init root idx = (Ok g, idx') ->
  (forall k it, In (k, it) g ->
                k = item_id it /\
                exists c, In c (element_children root) /\ attrib_get c "id" = Some k) /\
  Graph_len g <= List.length (element_children root).
Proof.
  intros H. apply add_elements_entries in H. destruct H as [Hin Hlen].
  split; [|exact Hlen].
  intros k it Hk. destruct (Hin _ Hk) as [[] | (c & Hc & Hid & Hk')].
  split; [exact Hk' | exists c; auto].
Qed.

Lemma Graph_init_entries_witness :
  (forall k it, In (k, it) sample_graph ->
                k = item_id it /\
                exists c, In c (element_children sample_process) /\
                          attrib_get c "id" = Some k) /\
  Graph_len sample_graph <= List.length (element_children sample_process).
Proof. apply (Graph_init_entries sample_process sample_graph 0 1). reflexivity. Defined.

(** ** Start and end events *)

(** A [startEvent] or [endEvent] element of the BPMN namespace is sent to the
    coloured node handler by name: with a non-empty [id] it becomes a plain
    node in the colour of its kind, named by the placeholder when it has no
    name; without one the handler raises, and the exception is not caught. *)
Theorem event_dispatch (e : element) (idx : nat) (local colour : string) :
  In (local, colour) [("startEvent", "#d1ffd1"); ("endEvent", "#ffd1d1")] ->
  element_tag e = bpmn local ->
  (has_attrib e "id" ->
   exists id,
     attrib_get e "id" = Some id /\
     process_element e idx =
     (Ok (Some (ItemNode (mkNode id (bpmn local)
                                 (if opt_truthy (attrib_get e "name")
                                  then format_opt (attrib_get e "name") else NO_NAME)
                                 true (Some colour) None PlainNode))), idx)) /\
  (~ has_attrib e "id" ->
   process_element e idx = (Raise UnsuitableHandlerException, idx)).
Proof.
  intros Hin Htag.
  assert (Hfn : get_handler_fn e = Ok (Some (fn_partial_handle_coloured_node colour))).
  { unfold get_handler_fn, Tag_from_element. rewrite Htag.
    destruct Hin as [H|[H|[]]]; injection H as <- <-; reflexivity. }
  rewrite (process_element_dedicated e _ idx Hfn).
  unfold call_handler, build_pure, handle_coloured_node, handle_node,
    element_has_attribs, forallb.
  rewrite andb_true_r. pose proof (opt_truthy_spec e "id") as Hid.
  split.
  - intros H. destruct (Node_from_element_ok e H) as (id & Hg & Hn).
    exists id. split; [exact Hg|].
    apply Hid in H. rewrite H, Hn. simpl. rewrite Htag.
    unfold Node_set_colour, Node_init. simpl.
    destruct (attrib_get e "name") as [[|c s]|]; reflexivity.
  - intros H. destruct (opt_truthy (attrib_get e "id")) eqn:E; [|reflexivity].
    exfalso. apply H, Hid. reflexivity.
Qed.

Lemma event_dispatch_witness :
  process_element (xml "startEvent" [("name", "Begin")] []) 0 =
  (Raise UnsuitableHandlerException, 0).
Proof.
  apply (proj2 (event_dispatch (xml "startEvent" [("name", "Begin")] []) 0
                               "startEvent" "#d1ffd1"
                               (or_introl eq_refl) eq_refl)).
  intros (v & H & _). discriminate H.
Defined.

(** ** Tags without a namespace *)

(** An element whose tag string does not start with an opening brace, as
    lxml gives it for an element without a namespace, cannot be dispatched:
    [Tag.from_string] raises an attribute error and the build of the graph
    that holds the element ends with it. *)
Theorem no_namespace_aborts (e : element) (rest : list element) (g : Graph) (idx : nat) :
  hd_eqb "{"%char (element_tag e) = false ->
  process_element e idx = (Raise AttributeError, idx) /\
  add_elements process_element g (e :: rest) idx = (Raise AttributeError, idx).
Proof.
  intros Hhd.
  assert (Hp : process_element e idx = (Raise AttributeError, idx)).
  { rewrite process_element_eq.
    unfold process_element_with, build_bind, build_pure, get_handler_fn,
      Tag_from_element, Tag_from_string, TAG_REGEX_match.
    destruct (element_tag e) as [|a s]; [reflexivity|].
    simpl in Hhd.
    destruct a as [[] [] [] [] [] [] [] []]; try reflexivity.
    discriminate Hhd. }
  split; [exact Hp | apply add_elements_raise, Hp].
Qed.

Lemma no_namespace_aborts_witness :
  process_element (Element "documentation" [("id", "d1")] (Some "notes") []) 0 =
    (Raise AttributeError, 0) /\
  add_elements process_element []
    [Element "documentation" [("id", "d1")] (Some "notes") []] 0 =
    (Raise AttributeError, 0).
Proof.
  apply (no_namespace_aborts (Element "documentation" [("id", "d1")] (Some "notes") [])).
  reflexivity.
Defined.

(** ** Built subprocesses *)

Lemma first_in {A : Type} (l : list A) (a : A) : first l = Ok a -> In a l.
Proof. destruct l; simpl; [discriminate|]. intros H. injection H as ->. left. reflexivity. Qed.

Lemma child_node_with_tag_entry (g : Graph) (tag : string) (n : Node) :
  Graph_wf g ->
  In n (get_child_nodes_with_tag g tag) ->
  In (node_id n, ItemNode n) g /\ node_tag n = tag.
Proof.
  intros [_ Hid] H. unfold get_child_nodes_with_tag in H.
  apply filter_In in H. destruct H as [H Ht]. apply String.eqb_eq in Ht.
  split; [|exact Ht].
  apply get_child_nodes_in in H. unfold dict_values in H.
  apply in_map_iff in H. destruct H as ([k it] & E & Hkv). simpl in E. subst it.
  rewrite Forall_forall in Hid. specialize (Hid _ Hkv). simpl in Hid. subst k.
  exact Hkv.
Qed.

(** A subprocess that [__process_element] returns comes from a
    [subProcess] element of the BPMN namespace with that name; its children
    are the graph of the child elements, built before the subprocess takes
    the next cluster index; and its start and end node are nodes of that
    graph, filed under their ids, with the [startEvent] and the [endEvent]
    tag. *)
Theorem Subprocess_built (e : element) (idx idx' : nat) (id name : string)
    (children : Graph) (start_node end_node : Node) (index : nat) :
  process_element e idx =
    (Ok (Some (ItemSubprocess id name children start_node end_node index)), idx') ->
  element_tag e = bpmn "subProcess" /\
  attrib_get e "name" = Some name /\
  Graph_init e idx = (Ok children, index) /\
  idx' = S index /\
  In (node_id start_node, ItemNode start_node) children /\
  node_tag start_node = bpmn "startEvent" /\
  In (node_id end_node, ItemNode end_node) children /\
  node_tag end_node = bpmn "endEvent".
Proof.
  rewrite process_element_eq.
  unfold process_element_with, build_bind, build_pure.
  destruct (get_handler_fn e) as [[fn|]|x] eqn:Hfn; [| |discriminate].
  - destruct fn;
      try (unfold call_handler, build_pure,
             handle_boundaryEvent, handle_serviceTask, handle_userTask, handle_callActivity,
             handle_intermediateCatchEvent, handle_node, handle_edge, handle_gateway,
             handle_coloured_node, handle_node, bind;
           break_inner; intros H; discriminate H).
    unfold call_handler, handle_subProcess.
    destruct (element_is_subprocess e) eqn:Esub; [|discriminate].
    unfold Subprocess_from_element, build_bind, build_pure.
    fold (Graph_init e).
    destruct (Graph_init e idx) as [[ch|x] ix] eqn:Ech; [|discriminate].
    destruct (attrib_item e "id") as [id0|]; [|discriminate].
    destruct (attrib_item e "name") as [name0|] eqn:Ename; [|discriminate].
    destruct (Subprocess_init id0 name0 ch ix) as [sp|] eqn:Einit; [|discriminate].
    intros H. injection H as -> <-.
    unfold Subprocess_init, bind in Einit.
    destruct (first (get_child_nodes_with_tag ch (Tag_repr (Tag_bpmn "startEvent"))))
      as [s|] eqn:Es; [|discriminate].
    destruct (first (get_child_nodes_with_tag ch (Tag_repr (Tag_bpmn "endEvent"))))
      as [en|] eqn:Een; [|discriminate].
    injection Einit as -> -> -> -> -> ->.
    assert (Hwf : Graph_wf children) by (eapply add_elements_wf; [apply Graph_wf_empty | exact Ech]).
    apply first_in in Es. apply first_in in Een.
    apply (child_node_with_tag_entry _ _ _ Hwf) in Es.
    apply (child_node_with_tag_entry _ _ _ Hwf) in Een.
    unfold element_is_subprocess in Esub. apply String.eqb_eq in Esub.
    apply attrib_item_ok in Ename.
    repeat split; try tauto; assumption.
  - unfold OTHER_HANDLERS, try_handlers, handle_edge, handle_node, bind.
    break_inner; intros H; discriminate H.
Qed.

Lemma Subprocess_built_witness :
  exists children start_node end_node,
    Graph_init two_starts_subProcess 0 = (Ok children, 0) /\
    In (node_id start_node, ItemNode start_node) children /\
    node_tag start_node = bpmn "startEvent" /\
    In (node_id end_node, ItemNode end_node) children /\
    node_tag end_node = bpmn "endEvent".
Proof.
  let r := eval vm_compute in (process_element two_starts_subProcess 0) in
  match r with
  | (Ok (Some (ItemSubprocess ?i ?nm ?ch ?s ?en ?ix)), ?n) =>
      exists ch, s, en;
      destruct (Subprocess_built two_starts_subProcess 0 n i nm ch s en ix eq_refl)
        as (_ & _ & H1 & _ & H2 & H3 & H4 & H5)
  end.
  split; [exact H1|]. split; [exact H2|]. split; [exact H3|]. split; [exact H4 | exact H5].
Defined.

(** ** Cluster indices *)

Section ElementInduction.
Variable P : element -> Prop.
Hypothesis P_children :
  forall tag attrib text children,
    Forall P children -> P (Element tag attrib text children).

(** Induction over an element with the property at hand for its children. *)
Fixpoint element_nested_ind (e : element) : P e :=
  match e with
  | Element tag attrib text children =>
      P_children tag attrib text children
        ((fix all (l : list element) : Forall P l :=
            match l with
            | [] => Forall_nil P
            | c :: l' => Forall_cons c (element_nested_ind c) (all l')
            end) children)
  end.
End ElementInduction.

Lemma item_indices_subprocess (id name : string) (children : Graph)
    (start_node end_node : Node) (index : nat) :
  item_indices (ItemSubprocess id name children start_node end_node index) =
  index :: graph_indices children.
Proof.
  reflexivity.
Qed.

Lemma indices_in_weaken (lo hi hi' : nat) (l : list nat) :
  hi <= hi' -> indices_in lo hi l -> indices_in lo hi' l.
Proof.
  intros Hle [Hnd Hr]. split; [exact Hnd|]. intros i Hi. specialize (Hr i Hi). lia.
Qed.

Lemma graph_indices_dict_set_in (g : Graph) (k : string) (v : item) (i : nat) :
  In i (graph_indices (dict_set g k v)) ->
  In i (graph_indices g) \/ In i (item_indices v).
Proof.
  unfold graph_indices. rewrite !in_flat_map.
  intros (kv & Hkv & Hi). apply dict_set_in in Hkv. destruct Hkv as [-> | Hkv].
  - right. exact Hi.
  - left. exists kv. auto.
Qed.

(** Filing an item whose indices are new keeps the indices of the graph
    distinct, also when the item takes the place of an older one. *)
Lemma graph_indices_dict_set (g : Graph) (k : string) (v : item) (lo mid hi : nat) :
  lo <= mid -> mid <= hi ->
  indices_in lo mid (graph_indices g) ->
  indices_in mid hi (item_indices v) ->
  indices_in lo hi (graph_indices (dict_set g k v)).
Proof.
  intros Hlo Hhi Hg [Hvnd Hvr].
  split.
  - destruct Hg as [Hnd Hr]. revert Hnd Hr.
    induction g as [|[k' v'] d IH]; simpl; intros Hnd Hr.
    + rewrite app_nil_r. exact Hvnd.
    + destruct (String.eqb k' k); simpl.
      * apply NoDup_app; [exact Hvnd | eapply NoDup_app_remove_l, Hnd |].
        intros i Hi Hd. specialize (Hvr i Hi).
        assert (lo <= i < mid) by (apply Hr, in_or_app; right; exact Hd). lia.
      * apply NoDup_app.
        -- eapply NoDup_app_remove_r, Hnd.
        -- apply IH; [eapply NoDup_app_remove_l, Hnd|].
           intros i Hi. apply Hr, in_or_app. right. exact Hi.
        -- intros i Hi Ht. apply graph_indices_dict_set_in in Ht.
           destruct Ht as [Ht|Ht].
           ++ clear IH Hr. induction (item_indices v') as [|a l IHl]; [destruct Hi|].
              simpl in Hnd. inversion Hnd as [|? ? Hn Hnd']; subst.
              destruct Hi as [->|Hi]; [|auto].
              apply Hn, in_or_app. right. exact Ht.
           ++ specialize (Hvr i Ht).
              assert (lo <= i < mid) by (apply Hr, in_or_app; left; exact Hi). lia.
  - intros i Hi. apply graph_indices_dict_set_in in Hi. destruct Hi as [Hi|Hi].
    + destruct Hg as [_ Hr]. specialize (Hr i Hi). lia.
    + specialize (Hvr i Hi). lia.
Qed.

Lemma add_elements_indices (elements : list element) :
  Forall counts elements ->
  forall g lo idx r idx',
    lo <= idx ->
    indices_in lo idx (graph_indices g) ->
    add_elements process_element g elements idx = (r, idx') ->
    idx <= idx' /\
    forall g', r = Ok g' -> indices_in lo idx' (graph_indices g').
Proof.
  induction 1 as [|e rest He _ IH]; simpl; intros g lo idx r idx' Hlo Hg H.
  - unfold build_pure in H. injection H as <- <-. split; [lia|].
    intros g' E. injection E as <-. exact Hg.
  - unfold build_bind in H.
    destruct (process_element e idx) as [[it|x] idx1] eqn:E.
    + destruct (He _ _ _ E) as [Hle Hit].
      apply IH with (lo := lo) in H; [destruct H as [H1 H2]; split; [lia | exact H2] | lia |].
      destruct it as [i|]; simpl.
      * apply graph_indices_dict_set with (mid := idx); auto.
      * apply indices_in_weaken with (hi := idx); assumption.
    + injection H as <- <-. destruct (He _ _ _ E) as [Hle _].
      split; [exact Hle | discriminate].
Qed.

Lemma indices_in_nil (lo hi : nat) : indices_in lo hi [].
Proof. split; [constructor | intros i []]. Qed.

Lemma process_element_counts (e : element) : counts e.
Proof.
  induction e as [tag attrib text children Hch] using element_nested_ind.
  intros idx r idx'. rewrite process_element_eq.
  set (e := Element tag attrib text children).
  change (element_children e) with children.
  unfold process_element_with, build_bind, build_pure.
  destruct (get_handler_fn e) as [[fn|]|x] eqn:Hfn.
  - destruct fn;
      try (unfold call_handler, build_pure,
             handle_boundaryEvent, handle_serviceTask, handle_userTask, handle_callActivity,
             handle_intermediateCatchEvent, handle_node, handle_edge, handle_gateway,
             handle_coloured_node, handle_node, bind;
           break_inner; intros H; inversion H; subst; clear H;
           (split; [lia|]); intros it' E; inversion E; subst; apply indices_in_nil).
    unfold call_handler, handle_subProcess.
    destruct (element_is_subprocess e).
    2: { unfold build_pure. intros H. injection H as <- <-.
         split; [lia | discriminate]. }
    unfold Subprocess_from_element, build_bind, build_pure.
    destruct (add_elements process_element [] children idx) as [[ch|x] ix] eqn:Ech.
    2: { intros H. injection H as <- <-.
         apply (add_elements_indices children Hch [] idx idx) in Ech;
           [|lia|apply indices_in_nil].
         split; [tauto | discriminate]. }
    apply (add_elements_indices children Hch [] idx idx) in Ech;
      [|lia|apply indices_in_nil].
    destruct Ech as [Hle Hind]. specialize (Hind ch eq_refl).
    destruct (attrib_item e "id") as [id0|].
    2: { intros H. injection H as <- <-. split; [exact Hle | discriminate]. }
    destruct (attrib_item e "name") as [name0|].
    2: { intros H. injection H as <- <-. split; [exact Hle | discriminate]. }
    unfold Subprocess_init, bind.
    destruct (first (get_child_nodes_with_tag ch (Tag_repr (Tag_bpmn "startEvent")))).
    2: { intros H. injection H as <- <-. split; [exact Hle | discriminate]. }
    destruct (first (get_child_nodes_with_tag ch (Tag_repr (Tag_bpmn "endEvent")))).
    2: { intros H. injection H as <- <-. split; [exact Hle | discriminate]. }
    intros H. injection H as <- <-. split; [lia|].
    intros it E. injection E as <-. rewrite item_indices_subprocess.
    destruct Hind as [Hnd Hr]. split.
    + constructor; [|exact Hnd]. intros Hin. specialize (Hr ix Hin). lia.
    + intros i [<-|Hi]; [lia|]. specialize (Hr i Hi). lia.
  - unfold OTHER_HANDLERS, try_handlers, handle_edge, handle_node, bind.
    break_inner; intros H; inversion H; subst; clear H;
      (split; [lia|]); intros it' E; inversion E; subst; apply indices_in_nil.
  - intros H. injection H as <- <-. split; [lia | discriminate].
Qed.

(** The class counter never goes down while a graph is built, also when the
    build raises; and in a graph that was built, the cluster indices of all
    subprocesses, nested ones included, are pairwise different and lie
    between the counter before the build and the counter after it. *)
Theorem Graph_init_indices (root : element) (idx : nat) (r : result Graph) (idx' : nat) :
  Graph_init root idx = (r, idx') ->
  idx <= idx' /\
  forall g, r = Ok g ->
            NoDup (graph_indices g) /\
            forall i, In i (graph_indices g) -> idx <= i < idx'.
Proof.
  intros H.
  apply (add_elements_indices (element_children root)) with (lo := idx) in H.
  - exact H.
  - apply Forall_forall. intros c _. apply process_element_counts.
  - lia.
  - apply indices_in_nil.
Qed.

Lemma Graph_init_indices_witness :
  0 <= 1 /\
  forall g, Ok sample_graph = Ok g ->
            NoDup (graph_indices g) /\
            forall i, In i (graph_indices g) -> 0 <= i < 1.
Proof. apply (Graph_init_indices sample_process 0 (Ok sample_graph) 1). reflexivity. Defined.

(** ** Rendering of gateways *)

Lemma process_element_gateway (e : element) (idx idx' : nat) (n : Node) :
  process_element e idx = (Ok (Some (ItemNode n)), idx') ->
  node_cls n = Gateway ->
  get_handler_fn e = Ok (Some fn_handle_gateway) /\ node_tag n = element_tag e.
Proof.
  rewrite process_element_eq.
  unfold process_element_with, build_bind, build_pure.
  destruct (get_handler_fn e) as [[fn|]|x] eqn:Hfn; [| |discriminate].
  - destruct fn; unfold call_handler, build_pure, handle_subProcess,
      Subprocess_from_element, build_bind, build_pure, Subprocess_init,
      handle_boundaryEvent, handle_serviceTask, handle_userTask, handle_callActivity,
      handle_intermediateCatchEvent, handle_node, handle_edge, handle_gateway,
      handle_coloured_node, handle_node,
      BoundaryEvent_from_element, ServiceTask_from_element, UserTask_from_element,
      CallActivity_from_element, IntermediateCatchEvent_from_element,
      Gateway_from_element, Node_from_element, bind;
      break_inner; intros H; try discriminate H; inversion H; subst; clear H;
      simpl; intros Hc; try discriminate Hc; split; reflexivity.
  - unfold OTHER_HANDLERS, try_handlers, handle_edge, handle_node, Node_from_element, bind.
    break_inner; intros H; try discriminate H; inversion H; subst; clear H;
      simpl; intros Hc; discriminate Hc.
Qed.

Lemma eqb_append (p a b : string) : String.eqb (p ++ a) (p ++ b) = String.eqb a b.
Proof.
  induction p as [|c p IH]; simpl; [reflexivity|].
  rewrite Ascii.eqb_refl. exact IH.
Qed.

(** The lookup of a handler name in the module, by what follows [handle_]. *)
Lemma globals_handle (x : string) :
  globals ("handle_" ++ x) =
  dict_get
    [("subProcess", fn_handle_subProcess);
     ("boundaryEvent", fn_handle_boundaryEvent);
     ("serviceTask", fn_handle_serviceTask);
     ("userTask", fn_handle_userTask);
     ("callActivity", fn_handle_callActivity);
     ("intermediateCatchEvent", fn_handle_intermediateCatchEvent);
     ("coloured_node", fn_handle_coloured_node);
     ("node", fn_handle_node);
     ("edge", fn_handle_edge);
     ("gateway", fn_handle_gateway)]
    x.
Proof.
  unfold globals. cbn [dict_get].
  change "handle_subProcess" with ("handle_" ++ "subProcess").
  change "handle_boundaryEvent" with ("handle_" ++ "boundaryEvent").
  change "handle_serviceTask" with ("handle_" ++ "serviceTask").
  change "handle_userTask" with ("handle_" ++ "userTask").
  change "handle_callActivity" with ("handle_" ++ "callActivity").
  change "handle_intermediateCatchEvent" with ("handle_" ++ "intermediateCatchEvent").
  change "handle_coloured_node" with ("handle_" ++ "coloured_node").
  change "handle_node" with ("handle_" ++ "node").
  change "handle_edge" with ("handle_" ++ "edge").
  change "handle_gateway" with ("handle_" ++ "gateway").
  rewrite !eqb_append. reflexivity.
Qed.

(** The local names that lead to [handle_gateway]. *)
Lemma get_handler_fn_gateway (e : element) :
  get_handler_fn e = Ok (Some fn_handle_gateway) ->
  exists t, Tag_from_string (element_tag e) = Ok t /\
            (Tag_tag t = "exclusiveGateway" \/ Tag_tag t = "parallelGateway" \/
             Tag_tag t = "gateway").
Proof.
  unfold get_handler_fn, Tag_from_element, bind.
  destruct (Tag_from_string (element_tag e)) as [t|]; [|discriminate].
  intros H. exists t. split; [reflexivity|].
  rewrite globals_handle in H. unfold TAG_HANDLERS in H. cbn [dict_get] in H.
  repeat match type of H with
         | context [String.eqb ?a (Tag_tag t)] =>
             destruct (String.eqb a (Tag_tag t)) eqn:?; try discriminate H
         end;
    match goal with
    | E : String.eqb _ (Tag_tag t) = true |- _ => apply String.eqb_eq in E; rewrite <- E
    end; auto.
Qed.

(** A gateway that was built from an element always renders: as a diamond
    with the glyph [X] for an [exclusiveGateway], [+] for a
    [parallelGateway], and the text [None] for the local name [gateway],
    which reaches the handler by its name and has no glyph. *)
Theorem Gateway_renders (e : element) (idx idx' : nat) (n : Node)
    (graph : option Graph) (params : params_t) :
  process_element e idx = (Ok (Some (ItemNode n)), idx') ->
  node_cls n = Gateway ->
  exists t glyph,
    Tag_from_string (element_tag e) = Ok t /\
    In (Tag_tag t, glyph)
       [("exclusiveGateway", "X"); ("parallelGateway", "+"); ("gateway", "None")] /\
    node_to_dot n graph params =
    Ok (node_id n ++ " [shape=" ++ quoted "diamond" ++ ", label=" ++ quoted glyph ++ "]").
Proof.
  intros H Hc. destruct (process_element_gateway e idx idx' n H Hc) as [Hfn Htag].
  destruct (get_handler_fn_gateway e Hfn) as (t & Ht & Hlocal).
  unfold node_to_dot, Gateway_to_dot. rewrite Hc, Htag, Ht. simpl bind.
  exists t.
  destruct Hlocal as [E|[E|E]]; rewrite E; eexists;
    (split; [reflexivity|]); (split; [|reflexivity]); simpl; auto.
Qed.

Lemma Gateway_renders_witness :
  exists n,
    process_element (xml "exclusiveGateway" [("id", "g1")] []) 0 = (Ok (Some (ItemNode n)), 0) /\
    exists t glyph,
      Tag_from_string (element_tag (xml "exclusiveGateway" [("id", "g1")] [])) = Ok t /\
      In (Tag_tag t, glyph)
         [("exclusiveGateway", "X"); ("parallelGateway", "+"); ("gateway", "None")] /\
      node_to_dot n None None =
      Ok (node_id n ++ " [shape=" ++ quoted "diamond" ++ ", label=" ++ quoted glyph ++ "]").
Proof.
  eexists. split; [reflexivity|].
  apply (Gateway_renders (xml "exclusiveGateway" [("id", "g1")] []) 0 0 _ None None eq_refl
                         eq_refl).
Defined.

(** ** When rendering goes through *)

Section ItemInduction.
Variable P : item -> Prop.
Hypothesis P_node : forall n, P (ItemNode n).
Hypothesis P_edge : forall e, P (ItemEdge e).
Hypothesis P_subprocess :
  forall id name children start_node end_node index,
    Forall (fun kv => P (snd kv)) children ->
    P (ItemSubprocess id name children start_node end_node index).

(** Induction over an item with the property at hand for the children of a
    subprocess. *)
Fixpoint item_nested_ind (it : item) : P it :=
  match it with
  | ItemNode n => P_node n
  | ItemEdge e => P_edge e
  | ItemSubprocess id name children start_node end_node index =>
      P_subprocess id name children start_node end_node index
        ((fix all (l : list (string * item)) : Forall (fun kv => P (snd kv)) l :=
            match l with
            | [] => Forall_nil _
            | kv :: l' => Forall_cons kv (item_nested_ind (snd kv)) (all l')
            end) children)
  end.
End ItemInduction.

Lemma item_to_dot_subprocess (graph : option Graph) (params : params_t)
    (id name : string) (children : Graph) (start_node end_node : Node) (index : nat) :
  item_to_dot graph params (ItemSubprocess id name children start_node end_node index) =
  (children_dot <- Graph_to_dot children graph params ;;
   Ok (Subprocess_frame name index children_dot)).
Proof.
  unfold Graph_to_dot. cbn [item_to_dot].
  assert (E : forall l : list (string * item),
             (fix values_to_dot (entries : list (string * item)) : result (list string) :=
                match entries with
                | [] => Ok []
                | kv :: rest =>
                    fragment <- item_to_dot graph params (snd kv) ;;
                    fragments <- values_to_dot rest ;;
                    Ok (fragment :: fragments)
                end) l
             = map_result (item_to_dot graph params) (dict_values l)).
  { induction l as [|kv l IH]; [reflexivity|].
    cbn [dict_values map map_result]. rewrite IH. reflexivity. }
  rewrite E. destruct (map_result (item_to_dot graph params) (dict_values children));
    reflexivity.
Qed.

Lemma item_renders_subprocess (graph : option Graph) (params : params_t)
    (id name : string) (children : Graph) (start_node end_node : Node) (index : nat) :
  item_renders graph params (ItemSubprocess id name children start_node end_node index) =
  forallb (item_renders graph params) (dict_values children).
Proof.
  cbn [item_renders].
  induction children as [|kv l IH]; [reflexivity|].
  cbn [dict_values map forallb]. rewrite IH. reflexivity.
Qed.

Lemma Edge_to_dot_is_ok (e : Edge) (graph : option Graph) (params : params_t) :
  is_ok (Edge_to_dot e graph params) =
  endpoints_render graph (edge_source_node e) (edge_target_node e).
Proof.
  unfold Edge_to_dot, endpoints_render, names_edge.
  destruct graph as [[|kv g]|]; [reflexivity| |reflexivity].
  set (g' := kv :: g). unfold resolve_endpoint.
  destruct (dict_get g' (edge_source_node e)) as [[?|?|? ? ? ? ? ?]|];
    destruct (dict_get g' (edge_target_node e)) as [[?|?|? ? ? ? ? ?]|]; reflexivity.
Qed.

Lemma UserTask_get_label_is_ok (n : Node) (task_listeners : list TaskListener)
    (params : params_t) :
  is_ok (UserTask_get_label n task_listeners params) = listeners_render params task_listeners.
Proof.
  rewrite UserTask_get_label_ok. unfold listeners_render, UserTask_get_class_name.
  destruct (negb (params_truthy params) || params_flag params "show_task_listeners");
    [|reflexivity].
  destruct (negb (params_truthy params) || negb (params_flag params "show_package_names"));
    simpl.
  - apply forallb_eq. intros l. destruct (listener_class_name l); reflexivity.
  - apply forallb_forall. reflexivity.
Qed.

Lemma node_to_dot_is_ok (n : Node) (graph : option Graph) (params : params_t) :
  is_ok (node_to_dot n graph params) = node_renders graph params n.
Proof.
  unfold node_to_dot, node_renders.
  destruct (node_cls n) eqn:Ec;
    unfold Node_to_dot, BoundaryEvent_to_dot, Gateway_to_dot, get_label;
    rewrite ?Ec, ?bind_is_ok; try reflexivity.
  - apply (Edge_to_dot_is_ok (mkEdge "boundary" None attached (node_id n) None)).
  - apply UserTask_get_label_is_ok.
Qed.

Lemma item_to_dot_is_ok (graph : option Graph) (params : params_t) (it : item) :
  is_ok (item_to_dot graph params it) = item_renders graph params it.
Proof.
  induction it as [n|e|id name children sn en index IH] using item_nested_ind.
  - apply node_to_dot_is_ok.
  - apply Edge_to_dot_is_ok.
  - rewrite item_to_dot_subprocess, item_renders_subprocess, bind_is_ok.
    unfold Graph_to_dot. rewrite bind_is_ok, map_result_ok.
    unfold dict_values. induction IH as [|kv l Hkv _ IHl]; [reflexivity|].
    cbn [map forallb]. rewrite Hkv, IHl. reflexivity.
Qed.

(** Rendering a graph goes through exactly when every item, at any depth,
    can be rendered: no edge and no boundary event has an endpoint that is
    the id of an edge of the mapping handed in, the tag of every gateway
    parses, and for every user task the listeners are hidden, or shown with
    full class names, or all have a class name. *)
Theorem Graph_to_dot_succeeds (g : Graph) (graph : option Graph) (params : params_t) :
  is_ok (Graph_to_dot g graph params) = forallb (item_renders graph params) (dict_values g).
Proof.
  unfold Graph_to_dot. rewrite bind_is_ok, map_result_ok.
  apply forallb_eq. intros it. apply item_to_dot_is_ok.
Qed.

(** [Graph.save] leaves the header, the rendered graph and the closing brace
    in the file when every item can be rendered. When one cannot, the
    exception leaves the method after the header was written: the file holds
    the header alone. *)
Theorem save_outcome (g : Graph) (params : params_t) :
  (forallb (item_renders (Some g) params) (dict_values g) = true ->
   exists body,
     Graph_to_dot g (Some g) params = Ok body /\
     save g params = (save_header ++ body ++ String "}" (String LF ""), Ok tt)) /\
  (forallb (item_renders (Some g) params) (dict_values g) = false ->
   exists x, save g params = (save_header, Raise x)).
Proof.
  assert (H : is_ok (Graph_to_dot g (Some g) params)
              = forallb (item_renders (Some g) params) (dict_values g)).
  { unfold Graph_to_dot. rewrite bind_is_ok, map_result_ok.
    apply forallb_eq. intros it. apply item_to_dot_is_ok. }
  unfold save. fold save_header.
  destruct (Graph_to_dot g (Some g) params) as [body|x]; simpl in H; rewrite <- H.
  - split; [intros _; exists body; split; reflexivity | discriminate].
  - split; [discriminate | intros _; exists x; reflexivity].
Qed.

(** ** Cluster names *)

Lemma str_of_nat_inj (a b : nat) : str_of_nat a = str_of_nat b -> a = b.
Proof.
  assert (Hnil : forall n, Nat.to_uint n <> Decimal.Nil).
  { intros n. rewrite <- (DecimalNat.Unsigned.of_to n) at 1.
    rewrite DecimalNat.Unsigned.to_of. apply DecimalFacts.unorm_nonnil. }
  unfold str_of_nat. intros H.
  apply (f_equal NilZero.uint_of_string) in H.
  rewrite !NilZero.usu in H by apply Hnil.
  injection H as H. apply DecimalNat.Unsigned.to_uint_inj, H.
Qed.

Lemma cluster_line_inj (a b : nat) : cluster_line a = cluster_line b -> a = b.
Proof.
  unfold cluster_line. intros H.
  apply str_of_nat_inj.
  assert (E : forall p x y, p ++ x = p ++ y -> x = y).
  { induction p as [|c p IH]; simpl; intros x y Hxy; [exact Hxy|].
    injection Hxy as Hxy. apply IH, Hxy. }
  apply E in H. apply append_inj_l in H. exact H.
Qed.

Lemma NoDup_map_inj {A B : Type} (f : A -> B) (l : list A) :
  (forall x y, f x = f y -> x = y) -> NoDup l -> NoDup (map f l).
Proof.
  intros Hf. induction 1 as [|a l Hn _ IH]; simpl; constructor; [|exact IH].
  intros Hin. apply in_map_iff in Hin. destruct Hin as (x & E & Hx).
  apply Hf in E. subst x. exact (Hn Hx).
Qed.

(** The subprocesses of a built graph, nested ones included, open their
    clusters with pairwise different lines: the cluster names are the
    distinct indices in decimal. *)
Theorem cluster_lines_distinct (root : element) (idx idx' : nat) (g : Graph) :
  Graph_init root idx = (Ok g, idx') ->
  NoDup (map cluster_line (graph_indices g)) /\
  forall id name children start_node end_node index children_dot,
    Subprocess_frame name index children_dot =
    cluster_line index ++
    String LF (join (String LF "")
                 ["label=" ++ quoted name;
                  "style=" ++ quoted "filled" ++ String LF "";
                  "fillcolor=" ++ quoted "#f2f2f2";
                  children_dot;
                  String "}" (String LF "")]) /\
    item_indices (ItemSubprocess id name children start_node end_node index) =
    index :: graph_indices children.
Proof.
  intros H. split.
  - apply NoDup_map_inj; [apply cluster_line_inj|].
    apply (add_elements_indices (element_children root)) with (lo := idx) in H.
    + destruct H as [_ H]. apply (H g eq_refl).
    + apply Forall_forall. intros c _. apply process_element_counts.
    + lia.
    + apply indices_in_nil.
  - intros. split; reflexivity.
Qed.

Lemma cluster_lines_distinct_witness :
  NoDup (map cluster_line (graph_indices sample_graph)).
Proof.
  apply (proj1 (cluster_lines_distinct sample_process 0 1 sample_graph eq_refl)).
Defined.

(** ** Rendering of boundary events *)

(** A boundary event renders as a circle followed by an edge from the
    activity it is attached to: each end of that edge is resolved through the
    mapping like the ends of any edge, and the edge carries no label unless
    [show_flows] is set, when it carries the text [boundary]. *)
Theorem BoundaryEvent_to_dot_edge (n : Node) (attached : string) (g : Graph)
    (params : params_t) (source target : string) :
  Graph_wf g ->
  g <> [] ->
  rendered_endpoint g SourceSide attached source ->
  rendered_endpoint g TargetSide (node_id n) target ->
  BoundaryEvent_to_dot n attached (Some g) params =
  Ok (node_id n ++ " [shape=" ++ quoted "circle" ++ ", label=" ++ quoted "~" ++ "]"
        ++ String LF (source ++ " -> " ++ target ++
                      (if params_truthy params && params_flag params "show_flows"
                       then " [label=" ++ quoted "boundary" ++ "]" else ""))).
Proof.
  intros Hwf Hne Hs Ht. unfold BoundaryEvent_to_dot, Edge_to_dot.
  destruct g as [|kv g]; [congruence|].
  cbn [edge_source_node edge_target_node].
  rewrite (resolve_endpoint_source _ _ _ Hwf Hs).
  rewrite (resolve_endpoint_target _ _ _ Hwf Ht).
  cbn [bind fst snd]. unfold Edge_label.
  cbn [edge_name edge_condition edge_id opt_truthy app].
  destruct (params_truthy params); [destruct (params_flag params "show_flows")|];
    reflexivity.
Qed.

Lemma BoundaryEvent_to_dot_edge_witness :
  exists n,
    dict_get sample_graph "B" = Some (ItemNode n) /\
    BoundaryEvent_to_dot n "T" (Some sample_graph) None =
    Ok ("B [shape=" ++ quoted "circle" ++ ", label=" ++ quoted "~" ++ "]"
          ++ String LF "T -> B").
Proof.
  let it := eval vm_compute in (dict_get sample_graph "B") in
  match it with
  | Some (ItemNode ?n) =>
      exists n; split; [reflexivity|];
      apply (BoundaryEvent_to_dot_edge n "T" sample_graph None "T" "B")
  end.
  - prove_wf.
  - vm_compute. discriminate.
  - eapply endpoint_node. vm_compute. reflexivity.
  - eapply endpoint_node. vm_compute. reflexivity.
Defined.
